(** * doeat: the data layer of a browser-local budgeting application

    A shallow embedding of [src/types/index.ts], [src/services/dataService.ts],
    [src/utils/formatters.ts] (generateId) and the [useBudgetData] hook, and
    the properties of the persistence service, the summary engine and the
    data-access facade.

    Conventions of the embedding.
    - A JavaScript string is a [string]: a sequence of code units below 256.
      Ids, dates ("YYYY-MM-DD") and ISO timestamps of the application are
      ASCII.  A [\uXXXX] escape above 00FF has no image in this type.
    - A JavaScript number is a [Z].  The amounts of the application are whole
      Rupiah, parsed with [parseInt] by the forms, and the times are integer
      milliseconds; on such values (safe integers) the double arithmetic of
      [+], [-] and [>] is exact.  The two percentages, the only quotients,
      are rationals ([Q]).  A JSON number with a fraction or an exponent has
      no image in this type.
    - [undefined] is [None]; a thrown exception is the [Throw] result.
    - The clock ([Date.now], [new Date()]) and [Math.random] are oracles of
      the [World]; the functions of [Date] and of strings that depend on
      the locale, the time zone or free text are fields of its [Platform],
      as is the quota of the storage. *)

From Stdlib Require Import ZArith QArith String Ascii List Bool Lia.
From Stdlib Require Import Sorting.Sorted Sorting.Permutation.
From Stdlib Require Import DecimalFacts DecimalZ OrderedTypeEx.
Import ListNotations.

Local Open Scope string_scope.
Local Open Scope Z_scope.

(** ** JSON values, [JSON.stringify] and [JSON.parse] *)

Module Json.

#[local] Unset Elimination Schemes.

(** What [JSON.parse] can return.  An object is its list of own properties
    in insertion order.  The induction principle, with the elements of an
    array and the values of an object as premises, is [JSON_ind] below. *)
Inductive JSON : Type :=
| JNull
| JBool (b : bool)
| JNum (n : Z)
| JStr (s : string)
| JArr (items : list JSON)
| JObj (props : list (string * JSON)).

#[local] Set Elimination Schemes.

(** ToBoolean. *)
Definition truthy (v : JSON) : bool :=
  match v with
  | JNull => false
  | JBool b => b
  | JNum n => negb (n =? 0)
  | JStr s => negb (s =? "")%string
  | JArr _ | JObj _ => true
  end.

(** [!x] on a property read: [undefined] is falsy. *)
Definition falsy (v : option JSON) : bool :=
  match v with
  | None => true
  | Some x => negb (truthy x)
  end.

Fixpoint get_prop (o : list (string * JSON)) (k : string) : option JSON :=
  match o with
  | [] => None
  | (k', v) :: t => if (k' =? k)%string then Some v else get_prop t k
  end.

(** Assignment to a property: an existing key keeps its place, a new key
    goes last.  This is the order of JavaScript for the keys that are not
    numerals (see [index_like] and [plain]). *)
Fixpoint set_prop (o : list (string * JSON)) (k : string) (v : JSON)
  : list (string * JSON) :=
  match o with
  | [] => [(k, v)]
  | (k', v') :: t =>
      if (k' =? k)%string then (k, v) :: t else (k', v') :: set_prop t k v
  end.

Fixpoint mem_string (k : string) (l : list string) : bool :=
  match l with
  | [] => false
  | x :: t => (x =? k)%string || mem_string k t
  end.

Fixpoint nodup_strings (l : list string) : bool :=
  match l with
  | [] => true
  | x :: t => negb (mem_string x t) && nodup_strings t
  end.

(** No object holds a key twice: true of every JavaScript object. *)
Fixpoint wf (v : JSON) : bool :=
  match v with
  | JArr l => forallb wf l
  | JObj o => nodup_strings (map fst o) && forallb (fun kv => wf (snd kv)) o
  | _ => true
  end.

(** The safe integers of JavaScript: the numbers that the model takes as
    [Z] are exact up to this bound. *)
Definition MAX_SAFE_INTEGER : Z := 9007199254740991.




(** *** Characters *)

Definition code (c : ascii) : N := N_of_ascii c.

Definition dquote : ascii := "034"%char.
Definition backslash : ascii := "092"%char.
Definition newline : ascii := "010"%char.

Definition is_ws (c : ascii) : bool :=
  match code c with
  | 32%N | 9%N | 10%N | 13%N => true
  | _ => false
  end.

Definition hex_digit (n : N) : ascii :=
  if (n <? 10)%N then ascii_of_N (48 + n) else ascii_of_N (87 + n).

Definition hex_value (c : ascii) : option N :=
  let n := code c in
  if ((48 <=? n) && (n <=? 57))%N then Some (n - 48)%N
  else if ((97 <=? n) && (n <=? 102))%N then Some (n - 87)%N
  else if ((65 <=? n) && (n <=? 70))%N then Some (n - 55)%N
  else None.

(** *** JSON.stringify *)

(** QuoteJSONString, one code unit. *)
Definition quote_char (c : ascii) : string :=
  match code c with
  | 34%N => String backslash (String dquote "")
  | 92%N => String backslash (String backslash "")
  | 8%N => String backslash "b"
  | 9%N => String backslash "t"
  | 10%N => String backslash "n"
  | 12%N => String backslash "f"
  | 13%N => String backslash "r"
  | n =>
      if (n <? 32)%N
      then String backslash
             (String "u" (String "0" (String "0"
                (String (hex_digit (n / 16)) (String (hex_digit (n mod 16)) "")))))
      else String c ""
  end.

Fixpoint quote_body (s : string) : string :=
  match s with
  | "" => ""
  | String c r => quote_char c ++ quote_body r
  end.

Definition quote (s : string) : string :=
  String dquote (quote_body s ++ String dquote "").

Definition digit_char (k : nat) : ascii := ascii_of_nat (48 + k).

Fixpoint string_of_uint (d : Decimal.uint) : string :=
  match d with
  | Decimal.Nil => ""
  | Decimal.D0 r => String (digit_char 0) (string_of_uint r)
  | Decimal.D1 r => String (digit_char 1) (string_of_uint r)
  | Decimal.D2 r => String (digit_char 2) (string_of_uint r)
  | Decimal.D3 r => String (digit_char 3) (string_of_uint r)
  | Decimal.D4 r => String (digit_char 4) (string_of_uint r)
  | Decimal.D5 r => String (digit_char 5) (string_of_uint r)
  | Decimal.D6 r => String (digit_char 6) (string_of_uint r)
  | Decimal.D7 r => String (digit_char 7) (string_of_uint r)
  | Decimal.D8 r => String (digit_char 8) (string_of_uint r)
  | Decimal.D9 r => String (digit_char 9) (string_of_uint r)
  end.

(** Number::toString on an integer below 10^21 in absolute value; from
    there on JavaScript prints an exponent, which is not in the model. *)
Definition string_of_Z (n : Z) : string :=
  match Z.to_int n with
  | Decimal.Pos d => string_of_uint d
  | Decimal.Neg d => String "-" (string_of_uint d)
  end.

Fixpoint join (sep : string) (l : list string) : string :=
  match l with
  | [] => ""
  | [x] => x
  | x :: t => x ++ sep ++ join sep t
  end.

(** The line break and indentation that [JSON.stringify] puts before an
    item when it has a gap, and nothing when it has none. *)
Definition pad (gap indent : string) : string :=
  if (gap =? "")%string then "" else String newline indent.

(** SerializeJSONProperty with the [gap] of the call and the current
    [indent]: with an empty gap the text is compact, otherwise each element
    and member goes on a line of its own, one gap deeper. *)
Fixpoint serialize (gap indent : string) (v : JSON) : string :=
  let stepback := indent in
  let indent := indent ++ gap in
  let wrap (l r : string) (parts : list string) :=
    match parts with
    | [] => l ++ r
    | _ =>
        l ++ pad gap indent ++ join (String "," (pad gap indent)) parts
          ++ pad gap stepback ++ r
    end in
  match v with
  | JNull => "null"
  | JBool true => "true"
  | JBool false => "false"
  | JNum n => string_of_Z n
  | JStr s => quote s
  | JArr l => wrap "[" "]" (map (serialize gap indent) l)
  | JObj o =>
      wrap "{" "}"
        (map (fun kv =>
                quote (fst kv)
                  ++ String ":" (if (gap =? "")%string then "" else " ")
                  ++ serialize gap indent (snd kv)) o)
  end.

(** [JSON.stringify(v)] and [JSON.stringify(v, null, 2)]. *)
Definition stringify (v : JSON) : string := serialize "" "" v.
Definition stringify2 (v : JSON) : string := serialize "  " "" v.

(** *** JSON.parse *)

Inductive outcome (A : Type) : Type :=
| Parsed (a : A) (rest : string)
| SyntaxError
| OutOfFuel.
Arguments Parsed {A} a rest.
Arguments SyntaxError {A}.
Arguments OutOfFuel {A}.

Fixpoint skip_ws (s : string) : string :=
  match s with
  | "" => ""
  | String c r => if is_ws c then skip_ws r else s
  end.

Definition unescape (c : ascii) : option ascii :=
  match code c with
  | 34%N => Some dquote
  | 92%N => Some backslash
  | 47%N => Some "/"%char
  | 98%N => Some (ascii_of_N 8)
  | 102%N => Some (ascii_of_N 12)
  | 110%N => Some (ascii_of_N 10)
  | 114%N => Some (ascii_of_N 13)
  | 116%N => Some (ascii_of_N 9)
  | _ => None
  end.

Definition hex4 (a b c d : ascii) : option N :=
  match hex_value a, hex_value b, hex_value c, hex_value d with
  | Some x, Some y, Some z, Some w => Some (((x * 16 + y) * 16 + z) * 16 + w)%N
  | _, _, _, _ => None
  end.

Definition cons_char (c : ascii) (r : option (string * string))
  : option (string * string) :=
  match r with
  | Some (s, rest) => Some (String c s, rest)
  | None => None
  end.

(** The characters of a string literal, after its opening quote; returns
    the string and the text after the closing quote. *)
Fixpoint parse_chars (s : string) : option (string * string) :=
  match s with
  | "" => None
  | String c r =>
      if (c =? dquote)%char then Some ("", r)
      else if (c =? backslash)%char then
        match r with
        | String e r1 =>
            if (e =? "u")%char then
              match r1 with
              | String h1 (String h2 (String h3 (String h4 r2))) =>
                  match hex4 h1 h2 h3 h4 with
                  | Some n =>
                      if (n <? 256)%N
                      then cons_char (ascii_of_N n) (parse_chars r2)
                      else None
                  | None => None
                  end
              | _ => None
              end
            else
              match unescape e with
              | Some ch => cons_char ch (parse_chars r1)
              | None => None
              end
        | "" => None
        end
      else if (code c <? 32)%N then None
      else cons_char c (parse_chars r)
  end.

Definition digit_of (c : ascii) : option (Decimal.uint -> Decimal.uint) :=
  match code c with
  | 48%N => Some Decimal.D0
  | 49%N => Some Decimal.D1
  | 50%N => Some Decimal.D2
  | 51%N => Some Decimal.D3
  | 52%N => Some Decimal.D4
  | 53%N => Some Decimal.D5
  | 54%N => Some Decimal.D6
  | 55%N => Some Decimal.D7
  | 56%N => Some Decimal.D8
  | 57%N => Some Decimal.D9
  | _ => None
  end.

Fixpoint parse_digits (s : string) : Decimal.uint * string :=
  match s with
  | "" => (Decimal.Nil, "")
  | String c r =>
      match digit_of c with
      | Some d => let (u, rest) := parse_digits r in (d u, rest)
      | None => (Decimal.Nil, s)
      end
  end.

(** The integer part of a number: at least one digit and no leading zero.
    A fraction or an exponent after it is not in the model. *)
Definition parse_uint (s : string) : option (Decimal.uint * string) :=
  let (u, rest) := parse_digits s in
  if Decimal.uint_beq (Decimal.unorm u) u then
    match rest with
    | String c _ =>
        if ((c =? ".") || (c =? "e") || (c =? "E"))%char then None
        else Some (u, rest)
    | "" => Some (u, rest)
    end
  else None.

Definition parse_number (s : string) : outcome JSON :=
  match s with
  | "" => SyntaxError
  | String c r =>
      if (c =? "-")%char then
        match parse_uint r with
        | Some (u, rest) => Parsed (JNum (Z.of_int (Decimal.Neg u))) rest
        | None => SyntaxError
        end
      else
        match parse_uint s with
        | Some (u, rest) => Parsed (JNum (Z.of_int (Decimal.Pos u))) rest
        | None => SyntaxError
        end
  end.

Fixpoint expect (lit s : string) : option string :=
  match lit with
  | "" => Some s
  | String c l =>
      match s with
      | String c' r => if (c =? c')%char then expect l r else None
      | "" => None
      end
  end.

Definition parse_literal (lit : string) (v : JSON) (s : string) : outcome JSON :=
  match expect lit s with
  | Some rest => Parsed v rest
  | None => SyntaxError
  end.

(** The text after [c] when [s] starts with it. *)
Definition after (c : ascii) (s : string) : option string :=
  match s with
  | String c' r => if (c' =? c)%char then Some r else None
  | "" => None
  end.

(** Recursive descent; [fuel] bounds the nesting of the calls. *)
Fixpoint parse_value (fuel : nat) (s : string) : outcome JSON :=
  match fuel with
  | O => OutOfFuel
  | S fuel =>
      match skip_ws s with
      | "" => SyntaxError
      | String c r =>
          if (c =? "{")%char then
            match after "}" (skip_ws r) with
            | Some r' => Parsed (JObj []) r'
            | None =>
                match parse_members fuel [] r with
                | Parsed o r' => Parsed (JObj o) r'
                | SyntaxError => SyntaxError
                | OutOfFuel => OutOfFuel
                end
            end
          else if (c =? "[")%char then
            match after "]" (skip_ws r) with
            | Some r' => Parsed (JArr []) r'
            | None =>
                match parse_elements fuel r with
                | Parsed l r' => Parsed (JArr l) r'
                | SyntaxError => SyntaxError
                | OutOfFuel => OutOfFuel
                end
            end
          else if (c =? dquote)%char then
            match parse_chars r with
            | Some (str, r') => Parsed (JStr str) r'
            | None => SyntaxError
            end
          else if (c =? "n")%char then parse_literal "ull" JNull r
          else if (c =? "t")%char then parse_literal "rue" (JBool true) r
          else if (c =? "f")%char then parse_literal "alse" (JBool false) r
          else parse_number (String c r)
      end
  end

with parse_elements (fuel : nat) (s : string) : outcome (list JSON) :=
  match fuel with
  | O => OutOfFuel
  | S fuel =>
      match parse_value fuel s with
      | Parsed v r =>
          match after "," (skip_ws r) with
          | Some r' =>
              match parse_elements fuel r' with
              | Parsed vs r'' => Parsed (v :: vs) r''
              | SyntaxError => SyntaxError
              | OutOfFuel => OutOfFuel
              end
          | None =>
              match after "]" (skip_ws r) with
              | Some r' => Parsed [v] r'
              | None => SyntaxError
              end
          end
      | SyntaxError => SyntaxError
      | OutOfFuel => OutOfFuel
      end
  end

with parse_members (fuel : nat) (acc : list (string * JSON)) (s : string)
  : outcome (list (string * JSON)) :=
  match fuel with
  | O => OutOfFuel
  | S fuel =>
      match after dquote (skip_ws s) with
      | Some r =>
          match parse_chars r with
          | Some (k, r1) =>
              match after ":" (skip_ws r1) with
              | Some r2 =>
                  match parse_value fuel r2 with
                  | Parsed v r3 =>
                      match after "," (skip_ws r3) with
                      | Some r4 => parse_members fuel (set_prop acc k v) r4
                      | None =>
                          match after "}" (skip_ws r3) with
                          | Some r4 => Parsed (set_prop acc k v) r4
                          | None => SyntaxError
                          end
                      end
                  | SyntaxError => SyntaxError
                  | OutOfFuel => OutOfFuel
                  end
              | None => SyntaxError
              end
          | None => SyntaxError
          end
      | None => SyntaxError
      end
  end.

(** [JSON.parse]: one value, then only white space.  [None] is the
    SyntaxError.  The fuel is enough for every text (see [parse_fuel]).

    The parser reads the JSON texts whose numbers are integers and whose
    strings hold code units below 256: a number with a fraction or an
    exponent, and an escape [\uXXXX] above [00FF], are beyond it, and it
    answers [None] where JavaScript parses them.  [in_model] below tells
    the texts that hold neither; a statement about a text that does not
    parse is made for those texts only. *)
Definition parse (s : string) : option JSON :=
  match parse_value (2 * String.length s + 1) s with
  | Parsed v rest =>
      match skip_ws rest with
      | "" => Some v
      | _ => None
      end
  | _ => None
  end.

(** *** The texts of the model *)

(** Where a scan of a text stands: outside the string literals (and then
    whether the last character was a digit), inside one, or inside one
    just after a backslash. *)
Inductive lexing : Type :=
| Outside (after_digit : bool)
| Inside
| Escaped.

(** Four hexadecimal digits with a value above [00FF]. *)
Definition wide (s : string) : bool :=
  match s with
  | String h1 (String h2 (String h3 (String h4 _))) =>
      match hex4 h1 h2 h3 h4 with
      | Some n => (256 <=? n)%N
      | None => false
      end
  | _ => false
  end.

(** The text holds, outside its string literals, a digit followed by [.],
    [e] or [E], or, inside one, an escape [\uXXXX] above [00FF]. *)
Fixpoint beyond (st : lexing) (s : string) : bool :=
  match s with
  | "" => false
  | String c r =>
      match st with
      | Outside after_digit =>
          if after_digit && ((c =? ".") || (c =? "e") || (c =? "E"))%char
          then true
          else if (c =? dquote)%char then beyond Inside r
          else beyond (Outside (match digit_of c with
                                | Some _ => true
                                | None => false
                                end)) r
      | Inside =>
          if (c =? backslash)%char then beyond Escaped r
          else if (c =? dquote)%char then beyond (Outside false) r
          else beyond Inside r
      | Escaped =>
          if (c =? "u")%char && wide r then true else beyond Inside r
      end
  end.

(** The texts on which [parse] is [JSON.parse]. *)
Definition in_model (text : string) : bool := negb (beyond (Outside false) text).

(** A text of white space only. *)
Fixpoint blank (s : string) : bool :=
  match s with
  | "" => true
  | String c r => is_ws c && blank r
  end.

(** What may follow a value in a printed text: the end, a comma, a closing
    bracket or a line break. *)
Definition closes (rest : string) : bool :=
  match rest with
  | "" => true
  | String c _ =>
      match code c with
      | 44%N | 93%N | 125%N | 10%N => true
      | _ => false
      end
  end.

(** The first character of a printed number, and of a printed value. *)
Definition numeric (c : ascii) : bool :=
  let n := code c in (n =? 45)%N || ((48 <=? n) && (n <=? 57))%N.

Definition opens (c : ascii) : bool :=
  match code c with
  | 123%N | 91%N | 34%N | 110%N | 116%N | 102%N => true
  | _ => numeric c
  end.

End Json.

Import Json.


(** ** The entities of [src/types/index.ts] *)

Module Period.
Record t : Type := mk {
  id : string;
  name : string;
  startDate : string;
  endDate : string;
  incomeAmount : Z
}.

(** [Omit<Period, 'id'>] *)
Record fields : Type := mkFields {
  f_name : string;
  f_startDate : string;
  f_endDate : string;
  f_incomeAmount : Z
}.

(** [Partial<Period>]: an absent key is [None]. *)
Record partial : Type := mkPartial {
  u_id : option string;
  u_name : option string;
  u_startDate : option string;
  u_endDate : option string;
  u_incomeAmount : option Z
}.

Definition toJSON (p : t) : JSON :=
  JObj [("id", JStr (id p)); ("name", JStr (name p));
        ("startDate", JStr (startDate p)); ("endDate", JStr (endDate p));
        ("incomeAmount", JNum (incomeAmount p))].
End Period.

Module Portion.
Record t : Type := mk {
  id : string;
  periodId : string;
  name : string;
  budgetAmount : Z;
  notes : option string
}.

Record fields : Type := mkFields {
  f_periodId : string;
  f_name : string;
  f_budgetAmount : Z;
  f_notes : option string
}.

(** [u_notes]: [None] when the updates have no key [notes], [Some None]
    when they have it with the value [undefined], as the form of the
    portions passes it for an empty note. *)
Record partial : Type := mkPartial {
  u_id : option string;
  u_periodId : option string;
  u_name : option string;
  u_budgetAmount : option Z;
  u_notes : option (option string)
}.

Definition toJSON (p : t) : JSON :=
  JObj ([("id", JStr (id p)); ("periodId", JStr (periodId p));
         ("name", JStr (name p)); ("budgetAmount", JNum (budgetAmount p))]
        ++ match notes p with
           | Some n => [("notes", JStr n)]
           | None => []
           end).
End Portion.

Module Expense.
Record t : Type := mk {
  id : string;
  periodId : string;
  portionId : string;
  date : string;
  description : string;
  amount : Z
}.

Record fields : Type := mkFields {
  f_periodId : string;
  f_portionId : string;
  f_date : string;
  f_description : string;
  f_amount : Z
}.

Record partial : Type := mkPartial {
  u_id : option string;
  u_periodId : option string;
  u_portionId : option string;
  u_date : option string;
  u_description : option string;
  u_amount : option Z
}.

Definition toJSON (e : t) : JSON :=
  JObj [("id", JStr (id e)); ("periodId", JStr (periodId e));
        ("portionId", JStr (portionId e)); ("date", JStr (date e));
        ("description", JStr (description e)); ("amount", JNum (amount e))].
End Expense.

Module AppData.
(** The root structure kept in localStorage. *)
Record t : Type := mk {
  version : string;
  createdAt : string;
  lastUsedAt : string;
  periods : list Period.t;
  portions : list Portion.t;
  expenses : list Expense.t;
  activePeriodId : option string
}.

(** The object as JSON sees it: a key whose value is [undefined] is not
    printed by [JSON.stringify] and reads as [undefined].  The keys stand
    in the order of the object literals of [dataService.ts]. *)
Definition props (d : t) : list (string * JSON) :=
  [("version", JStr (version d)); ("createdAt", JStr (createdAt d));
   ("lastUsedAt", JStr (lastUsedAt d));
   ("periods", JArr (map Period.toJSON (periods d)));
   ("portions", JArr (map Portion.toJSON (portions d)));
   ("expenses", JArr (map Expense.toJSON (expenses d)))]
  ++ match activePeriodId d with
     | Some a => [("activePeriodId", JStr a)]
     | None => []
     end.

Definition toJSON (d : t) : JSON := JObj (props d).

Definition set_lastUsedAt (d : t) (now : string) : t :=
  mk (version d) (createdAt d) now (periods d) (portions d) (expenses d)
     (activePeriodId d).
End AppData.

Module PortionSummary.
Record t : Type := mk {
  portion : Portion.t;
  budget : Z;
  used : Z;
  remaining : Z;
  percentUsed : Q;
  isOverBudget : bool
}.
End PortionSummary.

Module PeriodSummary.
Record t : Type := mk {
  totalIncome : Z;
  totalBudgeted : Z;
  totalExpenses : Z;
  remainingBudget : Z;
  remainingIncome : Z;
  unallocatedIncome : Z;
  overallPercentUsed : Q;
  isOverBudget : bool
}.
End PeriodSummary.

(** ** The browser: storage slot, clock, random source, Date *)

Module Env.

(** The functions of the platform that the model does not compute. *)
Record Platform : Type := mkPlatform {
  (** [Date.prototype.toISOString] of a time value *)
  toISOString : Z -> string;
  (** the time value of [new Date(s)] for a string; [None] is NaN *)
  Date_parse : string -> option Z;
  (** [new Date(now.getFullYear(), now.getMonth(), 1)], local time *)
  firstOfMonth : Z -> Z;
  (** [new Date(now.getFullYear(), now.getMonth() + 1, 0)], local time *)
  lastOfMonth : Z -> Z;
  (** [toLocaleDateString('en-US', month: 'short', year: 'numeric')] *)
  shortMonthYear : Z -> string;
  (** [String.prototype.localeCompare]: negative, zero or positive *)
  localeCompare : string -> string -> Z;
  (** whether [localStorage.setItem] takes the text (quota) *)
  accepts : string -> bool
}.

Record World : Type := mkWorld {
  platform : Platform;
  (** the value under STORAGE_KEY, [None] when the key is absent *)
  storage : option string;
  (** the clock: its k-th reading, and the readings made so far *)
  clock : nat -> Z;
  reads : nat;
  (** [Math.random().toString(36).substr(2, 9)]: k-th draw, draws so far *)
  random : nat -> string;
  draws : nat
}.

(** What a [throw] carries. *)
Inductive Exn : Type :=
| Error (message : string)
| TypeError
| JsonSyntaxError
| QuotaExceeded.

Inductive Result (A : Type) : Type :=
| Ok (a : A) (w : World)
| Throw (e : Exn) (w : World).
Arguments Ok {A} a w.
Arguments Throw {A} e w.

Definition M (A : Type) : Type := World -> Result A.

Definition ret {A} (a : A) : M A := fun w => Ok a w.
Definition throw {A} (e : Exn) : M A := fun w => Throw e w.

Definition bind {A B} (c : M A) (k : A -> M B) : M B :=
  fun w =>
    match c w with
    | Ok a w' => k a w'
    | Throw e w' => Throw e w'
    end.

(** [try c catch h]: the effects of [c] up to the throw stay. *)
Definition try_catch {A} (c : M A) (h : Exn -> M A) : M A :=
  fun w =>
    match c w with
    | Ok a w' => Ok a w'
    | Throw e w' => h e w'
    end.

Definition with_storage (w : World) (s : option string) : World :=
  mkWorld (platform w) s (clock w) (reads w) (random w) (draws w).

(** The world after one more reading of the clock, and after one more
    draw of [Math.random]. *)
Definition tick (w : World) : World :=
  mkWorld (platform w) (storage w) (clock w) (S (reads w)) (random w) (draws w).

Definition drawn (w : World) : World :=
  mkWorld (platform w) (storage w) (clock w) (reads w) (random w) (S (draws w)).

(** [Date.now()], and the time value of [new Date()]. *)
Definition Date_now : M Z := fun w => Ok (clock w (reads w)) (tick w).

Definition Math_random36 : M string :=
  fun w => Ok (random w (draws w)) (drawn w).

Definition the_platform : M Platform := fun w => Ok (platform w) w.

Definition getItem : M (option string) := fun w => Ok (storage w) w.

Definition setItem (text : string) : M unit :=
  fun w =>
    if accepts (platform w) text then Ok tt (with_storage w (Some text))
    else Throw QuotaExceeded w.

Definition removeItem : M unit := fun w => Ok tt (with_storage w None).

End Env.

Import Env.

Declare Scope js_scope.
Delimit Scope js_scope with js.
Notation "x <- c ;; k" := (bind c (fun x => k))
  (at level 61, c at next level, right associativity) : js_scope.
Notation "c ;;; k" := (bind c (fun _ => k))
  (at level 61, right associativity) : js_scope.

Local Open Scope js_scope.

(** ** [src/services/dataService.ts] *)

Module DataService.

Definition STORAGE_KEY : string := "budget_app_v1".
Definition ONE_YEAR_MS : Z := 365 * 24 * 60 * 60 * 1000.

(** [data.k] for a key that no prototype defines: a TypeError on [null],
    [undefined] on a primitive and on an array. *)
Definition member (data : JSON) (k : string) : M (option JSON) :=
  match data with
  | JNull => throw TypeError
  | JObj o => ret (get_prop o k)
  | _ => ret None
  end.

(** [data.k = v] in strict code (the files are ES modules): a TypeError on
    [null] and on a primitive.  An array takes the named property beside
    its elements, where neither [JSON.stringify] nor this program reads
    it. *)
Definition assign (data : JSON) (k : string) (v : JSON) : M JSON :=
  match data with
  | JObj o => ret (JObj (set_prop o k v))
  | JArr l => ret (JArr l)
  | _ => throw TypeError
  end.

(** ToString, as the Date constructor applies it to an object. *)
Fixpoint ToString (v : JSON) : string :=
  match v with
  | JNull => "null"
  | JBool true => "true"
  | JBool false => "false"
  | JNum n => string_of_Z n
  | JStr s => s
  | JArr l =>
      join "," (map (fun e => match e with
                              | JNull => ""
                              | _ => ToString e
                              end) l)
  | JObj _ => "[object Object]"
  end.

(** ToPrimitive, as the Date constructor and [join] apply it, throws a
    TypeError on an object that has a key [toString] of its own: a parsed
    object holds no function, so the own [toString] cannot be called, and
    [valueOf] (the inherited one returns the object, an own one cannot be
    called) gives no primitive either.  An array is converted by [join],
    which converts its elements. *)
Fixpoint unconvertible (v : JSON) : bool :=
  match v with
  | JObj o => mem_string "toString" (map fst o)
  | JArr l => existsb unconvertible l
  | _ => false
  end.

(** [new Date(x)] throws. *)
Definition Date_throws (x : option JSON) : bool :=
  match x with
  | Some v => unconvertible v
  | None => false
  end.

(** [new Date(x).getTime()]; [None] is NaN, and stands also where
    [new Date(x)] throws. *)
Definition Date_getTime (pf : Platform) (x : option JSON) : option Z :=
  match x with
  | None => None
  | Some JNull => Some 0
  | Some (JBool b) => Some (if b then 1 else 0)
  | Some (JNum n) => if Z.abs n <=? 8640000000000000 then Some n else None
  | Some (JStr s) => Date_parse pf s
  | Some v => if unconvertible v then None else Date_parse pf (ToString v)
  end.

(** [new Date().toISOString()] *)
Definition now_iso : M string :=
  now <- Date_now ;;
  pf <- the_platform ;;
  ret (toISOString pf now).

(** [s.split('T')[0]] *)
Fixpoint before_T (s : string) : string :=
  match s with
  | "" => ""
  | String c r => if (c =? "T")%char then "" else String c (before_T r)
  end.

(** [generateId] of [src/utils/formatters.ts]. *)
Definition generateId : M string :=
  t <- Date_now ;;
  r <- Math_random36 ;;
  ret (string_of_Z t ++ "-" ++ r).

Definition createEmptyAppData : M AppData.t :=
  now <- now_iso ;;
  ret (AppData.mk "v1" now now [] [] [] None).

Definition generateSeedData : M AppData.t :=
  now <- Date_now ;;
  pf <- the_platform ;;
  periodId <- generateId ;;
  let startDate := firstOfMonth pf now in
  let endDate := lastOfMonth pf now in
  let period :=
    Period.mk periodId (shortMonthYear pf now)
      (before_T (toISOString pf startDate))
      (before_T (toISOString pf endDate)) 10000000 in
  id0 <- generateId ;;
  id1 <- generateId ;;
  id2 <- generateId ;;
  id3 <- generateId ;;
  id4 <- generateId ;;
  let portions :=
    [Portion.mk id0 periodId "Food" 3000000 (Some "Daily meals and groceries");
     Portion.mk id1 periodId "Transport" 1000000 (Some "Ojek, fuel, parking");
     Portion.mk id2 periodId "Bills" 2000000 (Some "Electricity, water, internet");
     Portion.mk id3 periodId "Entertainment" 500000 (Some "Movies, games, hobbies");
     Portion.mk id4 periodId "Savings" 3500000
       (Some "Emergency fund and investments")] in
  let today := before_T (toISOString pf now) in
  e0 <- generateId ;;
  e1 <- generateId ;;
  e2 <- generateId ;;
  let expenses :=
    [Expense.mk e0 periodId id0 today "Lunch nasi goreng" 50000;
     Expense.mk e1 periodId id0 today "Snack and coffee" 30000;
     Expense.mk e2 periodId id1 today "Ojek to office" 25000] in
  ret (AppData.mk "v1" (toISOString pf now) (toISOString pf now)
         [period] portions expenses (Some periodId)).

Definition isDataExpired (data : JSON) : M bool :=
  c <- member data "createdAt" ;;
  (if Date_throws c then throw TypeError else ret tt) ;;;
  pf <- the_platform ;;
  now <- Date_now ;;
  ret (match Date_getTime pf c with
       | Some createdAt => ONE_YEAR_MS <? now - createdAt
       | None => false
       end).

(** The first statement of [saveDataToLocalStorage]: the object it is given
    is stamped in place, so the caller's object is the stamped one. *)
Definition stamp (data : JSON) : M JSON :=
  now <- now_iso ;;
  assign data "lastUsedAt" (JStr now).

(** Returns the object it was given, as the stamp left it. *)
Definition saveDataToLocalStorage (data : JSON) : M JSON :=
  try_catch
    (data' <- stamp data ;;
     setItem (stringify data') ;;;
     ret data')
    (fun _ => throw (Error "Failed to save data. Storage might be full.")).

Record Loaded : Type := mkLoaded { data : JSON; wasCleared : bool }.

Definition JSON_parse (text : string) : M JSON :=
  match parse text with
  | Some v => ret v
  | None => throw JsonSyntaxError
  end.

(** [!stored] on the string or null that [getItem] returns. *)
Definition no_text (stored : option string) : bool :=
  match stored with
  | None => true
  | Some s => (s =? "")%string
  end.

Definition loadDataFromLocalStorage : M Loaded :=
  try_catch
    (stored <- getItem ;;
     if no_text stored then
       seedData <- generateSeedData ;;
       seedData' <- saveDataToLocalStorage (AppData.toJSON seedData) ;;
       ret (mkLoaded seedData' false)
     else
       data <- JSON_parse (match stored with Some s => s | None => "" end) ;;
       expired <- isDataExpired data ;;
       if expired : bool then
         freshData <- createEmptyAppData ;;
         freshData' <- saveDataToLocalStorage (AppData.toJSON freshData) ;;
         ret (mkLoaded freshData' true)
       else
         now <- now_iso ;;
         data1 <- assign data "lastUsedAt" (JStr now) ;;
         data2 <- saveDataToLocalStorage data1 ;;
         ret (mkLoaded data2 false))
    (fun _ =>
       freshData <- generateSeedData ;;
       freshData' <- saveDataToLocalStorage (AppData.toJSON freshData) ;;
       ret (mkLoaded freshData' false)).

Definition clearAllData : M unit := removeItem.

Definition exportDataAsJson (data : JSON) : string := stringify2 data.

(** [!data.k] *)
Definition lacks (data : JSON) (k : string) : M bool :=
  v <- member data k ;;
  ret (falsy v).

(** [a || b] *)
Definition or_else (a b : M bool) : M bool :=
  x <- a ;;
  if x : bool then ret true else b.

Definition importDataFromJson (jsonString : string) : M JSON :=
  try_catch
    (data <- JSON_parse jsonString ;;
     bad <- or_else (lacks data "version")
              (or_else (lacks data "periods")
                 (or_else (lacks data "portions") (lacks data "expenses"))) ;;
     if bad : bool then throw (Error "Invalid data structure")
     else
       now <- now_iso ;;
       assign data "lastUsedAt" (JStr now))
    (fun _ => throw (Error "Invalid JSON format. Please check your data.")).

(** [l.reduce((sum, x) => sum + f(x), 0)] *)
Definition reduce_sum {A} (f : A -> Z) (l : list A) : Z :=
  fold_left (fun sum x => sum + f x) l 0.

(** [b > 0 ? (u / b) * 100 : 0] *)
Definition percent (u b : Z) : Q :=
  if 0 <? b then (inject_Z u / inject_Z b) * inject_Z 100 else 0%Q.

Definition calculatePortionSummary (portion : Portion.t)
    (expenses : list Expense.t) : PortionSummary.t :=
  let portionExpenses :=
    filter (fun e => (Expense.portionId e =? Portion.id portion)%string)
           expenses in
  let used := reduce_sum Expense.amount portionExpenses in
  let remaining := Portion.budgetAmount portion - used in
  let percentUsed := percent used (Portion.budgetAmount portion) in
  PortionSummary.mk portion (Portion.budgetAmount portion) used remaining
    percentUsed (Portion.budgetAmount portion <? used).

Definition calculatePeriodSummary (period : Period.t)
    (portions : list Portion.t) (expenses : list Expense.t)
  : PeriodSummary.t :=
  let periodPortions :=
    filter (fun p => (Portion.periodId p =? Period.id period)%string)
           portions in
  let periodExpenses :=
    filter (fun e => (Expense.periodId e =? Period.id period)%string)
           expenses in
  let totalIncome := Period.incomeAmount period in
  let totalBudgeted := reduce_sum Portion.budgetAmount periodPortions in
  let totalExpenses := reduce_sum Expense.amount periodExpenses in
  PeriodSummary.mk totalIncome totalBudgeted totalExpenses
    (totalBudgeted - totalExpenses) (totalIncome - totalExpenses)
    (totalIncome - totalBudgeted) (percent totalExpenses totalBudgeted)
    (totalBudgeted <? totalExpenses).


End DataService.

Import DataService.

(** ** The [useBudgetData] hook *)

Module Hook.

(** The state cells of the hook.  [data] holds the object as JavaScript has
    it: [importData] stores whatever passed the test of
    [importDataFromJson]. *)
Record State : Type := mkState {
  data : option JSON;
  wasDataCleared : bool;
  loading : bool
}.

Definition initial : State := mkState None false true.

Definition setData (d : JSON) (st : State) : State :=
  mkState (Some d) (wasDataCleared st) (loading st).

(** A callback of the hook: the state it leaves and how it ends. *)
Definition Callback (A : Type) : Type := State -> World -> State * Result A.

(** The effect run on mount. *)
Definition mount : Callback unit :=
  fun st w =>
    match loadDataFromLocalStorage w with
    | Ok r w' => (mkState (Some (DataService.data r)) (wasCleared r) false, Ok tt w')
    | Throw e w' => (st, Throw e w')
    end.

(** The effect that runs after [data] has changed: the object that the
    state holds is stamped in place and stored. *)
Definition persist : Callback unit :=
  fun st w =>
    match data st with
    | None => (st, Ok tt w)
    | Some d =>
        match saveDataToLocalStorage d w with
        | Ok saved w' => (setData saved st, Ok tt w')
        | Throw e w' =>
            (setData (match stamp d w with
                      | Ok stamped _ => stamped
                      | Throw _ _ => d
                      end) st, Throw e w')
        end
    end.

(** *** The updaters handed to [setData], on the TypeScript types

    Each mutation of the hook is [setData(prev => ...)]: the function it
    hands over is the updater below. *)

Definition Updater : Type := option AppData.t -> option AppData.t.

Definition or_old {A} (u : option A) (old : A) : A :=
  match u with
  | Some x => x
  | None => old
  end.

(** [{ ...p, ...updates }] *)
Definition mergePeriod (p : Period.t) (u : Period.partial) : Period.t :=
  Period.mk (or_old (Period.u_id u) (Period.id p))
    (or_old (Period.u_name u) (Period.name p))
    (or_old (Period.u_startDate u) (Period.startDate p))
    (or_old (Period.u_endDate u) (Period.endDate p))
    (or_old (Period.u_incomeAmount u) (Period.incomeAmount p)).

Definition mergePortion (p : Portion.t) (u : Portion.partial) : Portion.t :=
  Portion.mk (or_old (Portion.u_id u) (Portion.id p))
    (or_old (Portion.u_periodId u) (Portion.periodId p))
    (or_old (Portion.u_name u) (Portion.name p))
    (or_old (Portion.u_budgetAmount u) (Portion.budgetAmount p))
    (or_old (Portion.u_notes u) (Portion.notes p)).

Definition mergeExpense (e : Expense.t) (u : Expense.partial) : Expense.t :=
  Expense.mk (or_old (Expense.u_id u) (Expense.id e))
    (or_old (Expense.u_periodId u) (Expense.periodId e))
    (or_old (Expense.u_portionId u) (Expense.portionId e))
    (or_old (Expense.u_date u) (Expense.date e))
    (or_old (Expense.u_description u) (Expense.description e))
    (or_old (Expense.u_amount u) (Expense.amount e)).

(** [a !== b] on strings *)
Definition differs (a b : string) : bool := negb (a =? b)%string.

Definition setActivePeriod (periodId : string) : Updater :=
  fun prev =>
    match prev with
    | Some prev =>
        Some (AppData.mk (AppData.version prev) (AppData.createdAt prev)
                (AppData.lastUsedAt prev) (AppData.periods prev)
                (AppData.portions prev) (AppData.expenses prev)
                (Some periodId))
    | None => None
    end.

(** [addPeriod]: the new period gets its id before the updater runs. *)
Definition newPeriod (period : Period.fields) : M Period.t :=
  id <- generateId ;;
  ret (Period.mk id (Period.f_name period) (Period.f_startDate period)
         (Period.f_endDate period) (Period.f_incomeAmount period)).

Definition addPeriod (newPeriod : Period.t) : Updater :=
  fun prev =>
    match prev with
    | None => None
    | Some prev =>
        Some (AppData.mk (AppData.version prev) (AppData.createdAt prev)
                (AppData.lastUsedAt prev)
                (AppData.periods prev ++ [newPeriod])
                (AppData.portions prev) (AppData.expenses prev)
                (Some (Period.id newPeriod)))
    end.

Definition updatePeriod (periodId : string) (updates : Period.partial)
  : Updater :=
  fun prev =>
    match prev with
    | None => None
    | Some prev =>
        Some (AppData.mk (AppData.version prev) (AppData.createdAt prev)
                (AppData.lastUsedAt prev)
                (map (fun p => if (Period.id p =? periodId)%string
                               then mergePeriod p updates else p)
                     (AppData.periods prev))
                (AppData.portions prev) (AppData.expenses prev)
                (AppData.activePeriodId prev))
    end.

Definition deletePeriod (periodId : string) : Updater :=
  fun prev =>
    match prev with
    | None => None
    | Some prev =>
        let newPeriods :=
          filter (fun p => differs (Period.id p) periodId)
                 (AppData.periods prev) in
        Some (AppData.mk (AppData.version prev) (AppData.createdAt prev)
                (AppData.lastUsedAt prev)
                newPeriods
                (filter (fun p => differs (Portion.periodId p) periodId)
                        (AppData.portions prev))
                (filter (fun e => differs (Expense.periodId e) periodId)
                        (AppData.expenses prev))
                (match newPeriods with
                 | first :: _ => Some (Period.id first)
                 | [] => None
                 end))
    end.

Definition newPortion (portion : Portion.fields) : M Portion.t :=
  id <- generateId ;;
  ret (Portion.mk id (Portion.f_periodId portion) (Portion.f_name portion)
         (Portion.f_budgetAmount portion) (Portion.f_notes portion)).

Definition addPortion (newPortion : Portion.t) : Updater :=
  fun prev =>
    match prev with
    | Some prev =>
        Some (AppData.mk (AppData.version prev) (AppData.createdAt prev)
                (AppData.lastUsedAt prev) (AppData.periods prev)
                (AppData.portions prev ++ [newPortion])
                (AppData.expenses prev) (AppData.activePeriodId prev))
    | None => None
    end.

Definition updatePortion (portionId : string) (updates : Portion.partial)
  : Updater :=
  fun prev =>
    match prev with
    | None => None
    | Some prev =>
        Some (AppData.mk (AppData.version prev) (AppData.createdAt prev)
                (AppData.lastUsedAt prev) (AppData.periods prev)
                (map (fun p => if (Portion.id p =? portionId)%string
                               then mergePortion p updates else p)
                     (AppData.portions prev))
                (AppData.expenses prev) (AppData.activePeriodId prev))
    end.

Definition deletePortion (portionId : string) : Updater :=
  fun prev =>
    match prev with
    | None => None
    | Some prev =>
        Some (AppData.mk (AppData.version prev) (AppData.createdAt prev)
                (AppData.lastUsedAt prev) (AppData.periods prev)
                (filter (fun p => differs (Portion.id p) portionId)
                        (AppData.portions prev))
                (filter (fun e => differs (Expense.portionId e) portionId)
                        (AppData.expenses prev))
                (AppData.activePeriodId prev))
    end.

Definition newExpense (expense : Expense.fields) : M Expense.t :=
  id <- generateId ;;
  ret (Expense.mk id (Expense.f_periodId expense)
         (Expense.f_portionId expense) (Expense.f_date expense)
         (Expense.f_description expense) (Expense.f_amount expense)).

Definition addExpense (newExpense : Expense.t) : Updater :=
  fun prev =>
    match prev with
    | Some prev =>
        Some (AppData.mk (AppData.version prev) (AppData.createdAt prev)
                (AppData.lastUsedAt prev) (AppData.periods prev)
                (AppData.portions prev)
                (AppData.expenses prev ++ [newExpense])
                (AppData.activePeriodId prev))
    | None => None
    end.

Definition updateExpense (expenseId : string) (updates : Expense.partial)
  : Updater :=
  fun prev =>
    match prev with
    | None => None
    | Some prev =>
        Some (AppData.mk (AppData.version prev) (AppData.createdAt prev)
                (AppData.lastUsedAt prev) (AppData.periods prev)
                (AppData.portions prev)
                (map (fun e => if (Expense.id e =? expenseId)%string
                               then mergeExpense e updates else e)
                     (AppData.expenses prev))
                (AppData.activePeriodId prev))
    end.

Definition deleteExpense (expenseId : string) : Updater :=
  fun prev =>
    match prev with
    | Some prev =>
        Some (AppData.mk (AppData.version prev) (AppData.createdAt prev)
                (AppData.lastUsedAt prev) (AppData.periods prev)
                (AppData.portions prev)
                (filter (fun e => differs (Expense.id e) expenseId)
                        (AppData.expenses prev))
                (AppData.activePeriodId prev))
    | None => None
    end.

(** The ten mutations of the hook, as data. *)
Inductive Mutation : Type :=
| SetActivePeriod (periodId : string)
| AddPeriod (newPeriod : Period.t)
| UpdatePeriod (periodId : string) (updates : Period.partial)
| DeletePeriod (periodId : string)
| AddPortion (newPortion : Portion.t)
| UpdatePortion (portionId : string) (updates : Portion.partial)
| DeletePortion (portionId : string)
| AddExpense (newExpense : Expense.t)
| UpdateExpense (expenseId : string) (updates : Expense.partial)
| DeleteExpense (expenseId : string).

Definition updater (m : Mutation) : Updater :=
  match m with
  | SetActivePeriod i => setActivePeriod i
  | AddPeriod p => addPeriod p
  | UpdatePeriod i u => updatePeriod i u
  | DeletePeriod i => deletePeriod i
  | AddPortion p => addPortion p
  | UpdatePortion i u => updatePortion i u
  | DeletePortion i => deletePortion i
  | AddExpense e => addExpense e
  | UpdateExpense i u => updateExpense i u
  | DeleteExpense i => deleteExpense i
  end.

(** *** getFilteredExpenses *)

Record Filters : Type := mkFilters {
  startDate : option string;
  endDate : option string;
  portionId : option string
}.

(** An optional string in a condition: it counts when it is a non-empty
    string. *)
Definition nonempty (x : option string) : option string :=
  match x with
  | Some s => if (s =? "")%string then None else Some s
  | None => None
  end.

(** [filters?.k] in a condition. *)
Definition given (filters : option Filters) (k : Filters -> option string)
  : option string :=
  match filters with
  | None => None
  | Some f => nonempty (k f)
  end.

(** [if (x) l = l.filter(keep x)] *)
Definition filter_if {A} (x : option string) (keep : string -> A -> bool)
    (l : list A) : list A :=
  match x with
  | Some s => filter (keep s) l
  | None => l
  end.

(** [Array.prototype.sort] with a comparator: the stable sort.  [x] comes
    from the left of [l] in the array, so it stays before its equals. *)
Fixpoint insert_by {A} (cmp : A -> A -> Z) (x : A) (l : list A) : list A :=
  match l with
  | [] => [x]
  | y :: t => if 0 <? cmp x y then y :: insert_by cmp x t else x :: y :: t
  end.

Definition sort_by {A} (cmp : A -> A -> Z) (l : list A) : list A :=
  fold_right (insert_by cmp) [] l.

Definition getFilteredExpenses (pf : Platform) (data : option AppData.t)
    (filters : option Filters) : list Expense.t :=
  match data with
  | None => []
  | Some data =>
      match nonempty (AppData.activePeriodId data) with
      | None => []
      | Some active =>
          let filtered :=
            filter (fun e => (Expense.periodId e =? active)%string)
                   (AppData.expenses data) in
          let filtered :=
            filter_if (given filters startDate)
              (fun s e => (s <=? Expense.date e)%string) filtered in
          let filtered :=
            filter_if (given filters endDate)
              (fun s e => (Expense.date e <=? s)%string) filtered in
          let filtered :=
            filter_if (given filters portionId)
              (fun s e => (Expense.portionId e =? s)%string) filtered in
          sort_by (fun a b => localeCompare pf (Expense.date b) (Expense.date a))
                  filtered
      end
  end.

(** *** Data management *)

Definition exportData (st : State) : string :=
  match data st with
  | Some d => exportDataAsJson d
  | None => ""
  end.

(** [importData]: when [importDataFromJson] throws, [setData] is not
    reached.  When the save throws, the state already holds the imported
    object, stamped by that save. *)
Definition importData (jsonString : string) : Callback unit :=
  fun st w =>
    match importDataFromJson jsonString w with
    | Throw e w1 => (st, Throw e w1)
    | Ok importedData w1 =>
        match saveDataToLocalStorage importedData w1 with
        | Ok saved w2 => (setData saved st, Ok tt w2)
        | Throw e w2 =>
            (setData (match stamp importedData w1 with
                      | Ok stamped _ => stamped
                      | Throw _ _ => importedData
                      end) st, Throw e w2)
        end
    end.

Definition resetData : Callback unit :=
  fun st w =>
    match (clearAllData ;;; loadDataFromLocalStorage) w with
    | Ok r w' => (setData (DataService.data r) st, Ok tt w')
    | Throw e w' => (st, Throw e w')
    end.

Definition emptyData (now : string) : AppData.t :=
  AppData.mk "v1" now now [] [] [] None.

Definition clearData : Callback unit :=
  fun st w =>
    match (clearAllData ;;; now_iso) w with
    | Throw e w1 => (st, Throw e w1)
    | Ok now w1 =>
        let emptyData := AppData.toJSON (emptyData now) in
        match saveDataToLocalStorage emptyData w1 with
        | Ok saved w2 => (setData saved st, Ok tt w2)
        | Throw e w2 =>
            (setData (match stamp emptyData w1 with
                      | Ok stamped _ => stamped
                      | Throw _ _ => emptyData
                      end) st, Throw e w2)
        end
    end.

End Hook.

Import Hook.

(** ** Reference definitions, in the words of the specification *)

(** The sum of [f] over exactly the items of [l] that satisfy [P]. *)
Definition sum_where {A} (P : A -> bool) (f : A -> Z) (l : list A) : Z :=
  fold_right (fun x acc => (if P x then f x else 0) + acc) 0 l.

(** [d] lies in the inclusive range of the bounds that are given. *)
Definition in_range (lo hi : option string) (d : string) : bool :=
  match lo with
  | Some s => (s <=? d)%string
  | None => true
  end
  && match hi with
     | Some s => (d <=? s)%string
     | None => true
     end.

(** A filter is provided when it is a string that is not empty; a filter
    left out, and the empty string, are not. *)
Definition provided (x : option string) : option string :=
  match x with
  | Some (String c r) => Some (String c r)
  | _ => None
  end.

Definition in_portion (p : option string) (e : Expense.t) : bool :=
  match p with
  | Some s => (Expense.portionId e =? s)%string
  | None => true
  end.

(** A comparator that [Array.prototype.sort] can sort with: a consistent
    comparator of ECMAScript, a total preorder given by the sign. *)
Definition consistent (cmp : string -> string -> Z) : Prop :=
  (forall a, cmp a a = 0)
  /\ (forall a b, 0 < cmp a b <-> cmp b a < 0)
  /\ (forall a b c, cmp a b <= 0 -> cmp b c <= 0 -> cmp a c <= 0).

(** The top-level field [k] of a parsed value, when it has one. *)
Definition field (v : JSON) (k : string) : option JSON :=
  match v with
  | JObj o => get_prop o k
  | _ => None
  end.

(** The fields that [importDataFromJson] asks for. *)
Definition required : list string :=
  ["version"; "periods"; "portions"; "expenses"].

Definition invalid_json : Exn :=
  Error "Invalid JSON format. Please check your data.".


(** [new Date().toISOString()] at the next reading of the clock. *)
Definition iso_now (w : World) : string :=
  toISOString (platform w) (clock w (reads w)).

(** The id that [generateId] makes next. *)
Definition id_at (w : World) : string :=
  string_of_Z (clock w (reads w)) ++ "-" ++ random w (draws w).


(** ** A browser to run the examples in *)

Module Demo.

(** Code-unit order, as the sign that [localeCompare] returns. *)
Definition compare_units (a b : string) : Z :=
  match String.compare a b with
  | Lt => -1
  | Eq => 0
  | Gt => 1
  end.

Definition platform : Platform :=
  mkPlatform
    (fun t => "2025-11-15T" ++ string_of_Z t ++ "Z")
    (fun s => if (s =? "2024-01-01T00:00:00.000Z")%string
              then Some 1704067200000 else None)
    (fun t => t) (fun t => t)
    (fun _ => "Nov 2025")
    compare_units
    (fun _ => true).

(** The clock reads 2025-11-15 and moves one millisecond a reading. *)
Definition world (stored : option string) : World :=
  mkWorld platform stored (fun k => 1763200000000 + Z.of_nat k) 0
          (fun k => "k" ++ string_of_Z (Z.of_nat k)) 0.

Definition nov : Period.t :=
  Period.mk "p-nov" "Nov 2025" "2025-11-01" "2025-11-30" 10000000.

Definition food : Portion.t :=
  Portion.mk "c-food" "p-nov" "Food" 3000000 (Some "Daily meals").

Definition transport : Portion.t :=
  Portion.mk "c-transport" "p-nov" "Transport" 1000000 None.

Definition spent : list Expense.t :=
  [Expense.mk "e1" "p-nov" "c-food" "2025-11-04" "Lunch" 50000;
   Expense.mk "e2" "p-nov" "c-transport" "2025-11-07" "Ojek" 25000;
   Expense.mk "e3" "p-nov" "c-food" "2025-11-10" "Snack" 30000;
   Expense.mk "e4" "p-oct" "c-old" "2025-10-09" "Fuel" 40000;
   Expense.mk "e5" "p-nov" "c-food" "2025-11-12" "Dinner" 60000].

Definition store : AppData.t :=
  AppData.mk "v1" "2025-11-01T08:00:00.000Z" "2025-11-14T08:00:00.000Z"
    [nov] [food; transport] spent (Some "p-nov").

(** A store saved on 2024-01-01, as the storage slot holds it. *)
Definition old_text : string :=
  stringify
    (AppData.toJSON
       (AppData.mk "v1" "2024-01-01T00:00:00.000Z" "2024-06-01T00:00:00.000Z"
          [nov] [food] [] (Some "p-nov"))).


Definition unversioned : JSON :=
  JObj [("version", JStr ""); ("periods", JArr []); ("portions", JArr []);
        ("expenses", JArr [])].

End Demo.

(** ** [src/utils/formatters.ts] *)

Module Formatters.

(** [\d], [\w] and [\s] on a code unit below 256. *)
Definition is_digit (c : ascii) : bool :=
  let n := code c in ((48 <=? n) && (n <=? 57))%N.

Definition is_word (c : ascii) : bool :=
  let n := code c in
  (is_digit c || ((65 <=? n) && (n <=? 90)) || ((97 <=? n) && (n <=? 122))
   || (n =? 95))%N.

Definition is_space (c : ascii) : bool :=
  let n := code c in
  (((9 <=? n) && (n <=? 13)) || (n =? 32) || (n =? 160))%N.

(** The length of the run of digits that [s] starts with. *)
Fixpoint digit_run (s : string) : nat :=
  match s with
  | "" => O
  | String c r => if is_digit c then S (digit_run r) else O
  end.

(** The lookahead [(?=(\d{3})+(?!\d))] at the start of [s]: some groups of
    three digits and then no digit, that is, a run of digits whose length
    is a positive multiple of three. *)
Definition groups_ahead (s : string) : bool :=
  let m := digit_run s in negb (m =? 0)%nat && (m mod 3 =? 0)%nat.

(** [s.replace(/\B(?=(\d{3})+(?!\d))/g, '.')]: the pattern is empty, so
    every place of the text is tried once, and a dot goes in where it
    matches.  [before] tells whether the character before [s] is a word
    character; [\B] holds where the two sides are of one kind. *)
Fixpoint group_thousands (before : bool) (s : string) : string :=
  match s with
  | "" => ""
  | String c r =>
      (if Bool.eqb before (is_word c) && groups_ahead s then "." else "")
        ++ String c (group_thousands (is_word c) r)
  end.

(** [Math.abs(amount).toFixed(0)] is the decimal text of an integer below
    10^21; from there on [toFixed] prints an exponent, which is not in the
    model: the statements about [formatCurrency] bound the amount. *)
Definition formatCurrency (amount : Z) : string :=
  let formatted := group_thousands false (string_of_Z (Z.abs amount)) in
  if amount <? 0 then "-Rp " ++ formatted else "Rp " ++ formatted.

(** [s.replace(/[...]/g, '')] for a class of characters. *)
Fixpoint remove (class : ascii -> bool) (s : string) : string :=
  match s with
  | "" => ""
  | String c r => if class c then remove class r else String c (remove class r)
  end.

Fixpoint skip_spaces (s : string) : string :=
  match s with
  | "" => ""
  | String c r => if is_space c then skip_spaces r else s
  end.

(** [parseInt(s, 10)]: leading white space, a sign, then the digits up to
    the first other character; [None] is NaN.  The result is exact up to
    [MAX_SAFE_INTEGER]; beyond it JavaScript rounds to a double, which is
    not in the model. *)
Definition parseInt10 (s : string) : option Z :=
  let s := skip_spaces s in
  let '(negative, digits) :=
    match s with
    | String c r =>
        if (c =? "-")%char then (true, r)
        else if (c =? "+")%char then (false, r)
        else (false, s)
    | "" => (false, "")
    end in
  match fst (parse_digits digits) with
  | Decimal.Nil => None
  | u => Some (Z.of_int (if negative : bool then Decimal.Neg u else Decimal.Pos u))
  end.

(** [x || 0] on a number: NaN and 0 give 0. *)
Definition or_zero (x : option Z) : Z :=
  match x with
  | Some z => z
  | None => 0
  end.

Definition parseCurrency (value : string) : Z :=
  let cleaned :=
    remove (fun c => (c =? "R")%char || (c =? "p")%char || is_space c
                     || (c =? ".")%char) value in
  or_zero (parseInt10 cleaned).

(** [dateString.split('T')[0]] *)
Definition formatDateForInput (dateString : string) : string :=
  before_T dateString.

Definition getCurrentDate : M string :=
  now <- now_iso ;;
  ret (before_T now).

(** [String.prototype.trim] *)
Fixpoint trim_end (s : string) : string :=
  match s with
  | "" => ""
  | String c r =>
      match trim_end r with
      | "" => if is_space c then "" else String c ""
      | r' => String c r'
      end
  end.

Definition trim (s : string) : string := trim_end (skip_spaces s).

End Formatters.

Import Formatters.

(** ** What the hook derives from its data at each render *)

Module View.

(** [data?.periods.find(p => p.id === data.activePeriodId) || null] *)
Definition activePeriod (data : option AppData.t) : option Period.t :=
  match data with
  | None => None
  | Some data =>
      match AppData.activePeriodId data with
      | None => None
      | Some active =>
          find (fun p => (Period.id p =? active)%string) (AppData.periods data)
      end
  end.

Definition activePortions (data : option AppData.t) : list Portion.t :=
  match data with
  | None => []
  | Some data =>
      match AppData.activePeriodId data with
      | None => []
      | Some active =>
          filter (fun p => (Portion.periodId p =? active)%string)
                 (AppData.portions data)
      end
  end.

Definition activeExpenses (data : option AppData.t) : list Expense.t :=
  match data with
  | None => []
  | Some data =>
      match AppData.activePeriodId data with
      | None => []
      | Some active =>
          filter (fun e => (Expense.periodId e =? active)%string)
                 (AppData.expenses data)
      end
  end.

Definition periodSummary (data : option AppData.t) : option PeriodSummary.t :=
  match activePeriod data, data with
  | Some activePeriod, Some data =>
      Some (calculatePeriodSummary activePeriod (AppData.portions data)
              (AppData.expenses data))
  | _, _ => None
  end.


End View.

(** ** The forms of [PeriodManager] and [Expenses] *)

Module Forms.

(** How a submit ends: with a message in the dialog, which stays open, or
    with one call of the facade. *)
Inductive Submitted (F U : Type) : Type :=
| Rejected (error : string)
| Add (fields : F)
| Update (id : string) (updates : U).
Arguments Rejected {F U} error.
Arguments Add {F U} fields.
Arguments Update {F U} id updates.

(** [s.replace(/\./g, '')] *)
Definition without_dots (s : string) : string :=
  remove (fun c => (c =? ".")%char) s.

(** [!amount || amount <= 0] *)
Definition not_positive (amount : option Z) : bool :=
  match amount with
  | None => true
  | Some a => (a =? 0) || (a <=? 0)
  end.

Record PeriodForm : Type := mkPeriodForm {
  name : string;
  startDate : string;
  endDate : string;
  incomeAmount : string
}.

(** [openEditDialog] of [PeriodManager]; [incomeAmount.toString()] is
    [string_of_Z] for a safe integer. *)
Definition editPeriod (period : Period.t) : PeriodForm :=
  mkPeriodForm (Period.name period) (Period.startDate period)
    (Period.endDate period) (string_of_Z (Period.incomeAmount period)).

(** [handleSubmit] of [PeriodManager] *)
Definition submitPeriod (formData : PeriodForm)
    (editingPeriod : option Period.t)
  : Submitted Period.fields Period.partial :=
  if (trim (name formData) =? "")%string then Rejected "Name is required"
  else if (startDate formData =? "")%string || (endDate formData =? "")%string
  then Rejected "Start and end dates are required"
  else
    let income := parseInt10 (without_dots (incomeAmount formData)) in
    if not_positive income then Rejected "Income must be greater than 0"
    else
      match editingPeriod with
      | Some editingPeriod =>
          Update (Period.id editingPeriod)
            (Period.mkPartial None (Some (trim (name formData)))
               (Some (startDate formData)) (Some (endDate formData))
               (Some (or_zero income)))
      | None =>
          Add (Period.mkFields (trim (name formData)) (startDate formData)
                 (endDate formData) (or_zero income))
      end.

Record ExpenseForm : Type := mkExpenseForm {
  portionId : string;
  date : string;
  description : string;
  amount : string
}.

(** [openEditDialog] of [Expenses]; [amount.toString()] is [string_of_Z]
    for a safe integer. *)
Definition editExpense (expense : Expense.t) : ExpenseForm :=
  mkExpenseForm (Expense.portionId expense) (Expense.date expense)
    (Expense.description expense) (string_of_Z (Expense.amount expense)).

(** [handleSubmit] of [Expenses] *)
Definition submitExpense (formData : ExpenseForm)
    (editingExpense : option Expense.t) (activePeriodId : option string)
  : Submitted Expense.fields Expense.partial :=
  if (portionId formData =? "")%string then Rejected "Please select a category"
  else if (date formData =? "")%string then Rejected "Date is required"
  else if (trim (description formData) =? "")%string
  then Rejected "Description is required"
  else
    let amount := parseInt10 (without_dots (amount formData)) in
    if not_positive amount then Rejected "Amount must be greater than 0"
    else
      match nonempty activePeriodId with
      | None => Rejected "No active period selected"
      | Some activePeriodId =>
          match editingExpense with
          | Some editingExpense =>
              Update (Expense.id editingExpense)
                (Expense.mkPartial None None (Some (portionId formData))
                   (Some (date formData))
                   (Some (trim (description formData)))
                   (Some (or_zero amount)))
          | None =>
              Add (Expense.mkFields activePeriodId (portionId formData)
                     (date formData) (trim (description formData))
                     (or_zero amount))
          end
      end.

(** The list that [Expenses] shows: the three filter fields of its state,
    each passed as [x || undefined]. *)
Definition filteredExpenses (pf : Platform) (data : option AppData.t)
    (filterPortionId filterStartDate filterEndDate : string)
  : list Expense.t :=
  getFilteredExpenses pf data
    (Some (mkFilters (nonempty (Some filterStartDate))
             (nonempty (Some filterEndDate))
             (nonempty (Some filterPortionId)))).

End Forms.

(** ** The shape of the persistence paths *)

(** [saveDataToLocalStorage(x); return { data: x, wasCleared }]: the way
    every branch of [loadDataFromLocalStorage] ends. *)
Definition save_and_return (wasCleared : bool) (x : JSON) : M Loaded :=
  x' <- saveDataToLocalStorage x ;;
  ret (mkLoaded x' wasCleared).

Definition failed_to_save : Exn :=
  Error "Failed to save data. Storage might be full.".

(** [const d = generateSeedData(); saveDataToLocalStorage(d); return
    { data: d, wasCleared: false }]: the first-run branch and the [catch]
    block of [loadDataFromLocalStorage]. *)
Definition seed_run : M Loaded :=
  seedData <- generateSeedData ;;
  seedData' <- saveDataToLocalStorage (AppData.toJSON seedData) ;;
  ret (mkLoaded seedData' false).

(** The [catch] block of [loadDataFromLocalStorage] applied to the outcome
    of its [try] block. *)
Definition recover (r : Result Loaded) : Result Loaded :=
  match r with
  | Ok a w' => Ok a w'
  | Throw _ w' => seed_run w'
  end.

(** The object after [data.lastUsedAt = new Date().toISOString()], when
    the assignment does not throw. *)
Definition stamped (data : JSON) (w : World) : option JSON :=
  match data with
  | JObj o => Some (JObj (set_prop o "lastUsedAt" (JStr (iso_now w))))
  | JArr l => Some (JArr l)
  | _ => None
  end.

(** How a run of [loadDataFromLocalStorage] from [w] can end: in the save
    of an object or an array, or, when that save throws, in the save of
    seed data; the saves start from worlds with the storage of [w]. *)
Definition load_outcome (w : World) (r : Result Loaded) : Prop :=
  exists (b : bool) (d : JSON) (w0 : World) (seed : AppData.t) (w2 : World),
    platform w0 = platform w /\ storage w0 = storage w
    /\ platform w2 = platform w /\ storage w2 = storage w
    /\ stamped d w0 <> None
    /\ (r = save_and_return b d w0
        \/ r = match save_and_return b d w0 with
               | Ok a w' => Ok a w'
               | Throw _ _ => save_and_return false (AppData.toJSON seed) w2
               end).

(** ** Referential integrity, as the cascades keep it *)

Definition has_period (d : AppData.t) (periodId : string) : bool :=
  existsb (fun p => (Period.id p =? periodId)%string) (AppData.periods d).

(** Every portion lies in a period of the store, every expense names a
    portion of the store that lies in the period of the expense, and the
    active period, when set, is a period of the store. *)
Definition intact (d : AppData.t) : bool :=
  forallb (fun p => has_period d (Portion.periodId p)) (AppData.portions d)
  && forallb (fun e =>
                existsb (fun p =>
                           (Portion.id p =? Expense.portionId e)%string
                           && (Portion.periodId p =? Expense.periodId e)%string)
                        (AppData.portions d))
             (AppData.expenses d)
  && match AppData.activePeriodId d with
     | Some a => has_period d a
     | None => true
     end.


(** The marks of [formatCurrency] before the digits. *)
Definition currency_mark (amount : Z) : string :=
  if amount <? 0 then "-Rp " else "Rp ".

(** A store with two expenses of one date. *)
Module Sample.

Definition spent : list Expense.t :=
  [Expense.mk "e1" "p-nov" "c-food" "2025-11-07" "Lunch" 50000;
   Expense.mk "e2" "p-nov" "c-transport" "2025-11-10" "Ojek" 25000;
   Expense.mk "e3" "p-nov" "c-food" "2025-11-07" "Snack" 30000].

Definition store : AppData.t :=
  AppData.mk "v1" "2025-11-01T08:00:00.000Z" "2025-11-14T08:00:00.000Z"
    [Demo.nov] [Demo.food; Demo.transport] spent (Some "p-nov").



(** A browser whose storage refuses every write (quota used up). *)
Definition full_platform : Platform :=
  mkPlatform (toISOString Demo.platform) (Date_parse Demo.platform)
    (firstOfMonth Demo.platform) (lastOfMonth Demo.platform)
    (shortMonthYear Demo.platform) (localeCompare Demo.platform)
    (fun _ => false).

Definition full_world (stored : option string) : World :=
  mkWorld full_platform stored (fun k => 1763200000000 + Z.of_nat k) 0
          (fun k => "k" ++ string_of_Z (Z.of_nat k)) 0.

End Sample.

(** * Properties *)

Section Lists.
Context {A : Type}.

Lemma reduce_sum_from (f : A -> Z) (l : list A) (z : Z) :
  fold_left (fun sum x => sum + f x) l z
  = z + fold_right (fun x acc => f x + acc) 0 l.
Proof.
  revert z; induction l as [|x l IH]; intros z; simpl.
  - lia.
  - rewrite IH. lia.
Qed.

Lemma reduce_sum_filter (P : A -> bool) (f : A -> Z) (l : list A) :
  reduce_sum f (filter P l) = sum_where P f l.
Proof.
  unfold reduce_sum. rewrite reduce_sum_from. simpl.
  induction l as [|x l IH]; simpl; [reflexivity|].
  destruct (P x); simpl; rewrite IH; reflexivity.
Qed.

Lemma sum_where_ext (P Q : A -> bool) (f g : A -> Z) (l : list A) :
  (forall x, In x l -> P x = Q x /\ f x = g x) ->
  sum_where P f l = sum_where Q g l.
Proof.
  induction l as [|x l IH]; intros H; simpl; [reflexivity|].
  destruct (H x (or_introl eq_refl)) as [-> ->].
  rewrite IH; [reflexivity|]. intros y Hy. apply H. right. exact Hy.
Qed.

End Lists.

Lemma sum_where_map {A B} (h : A -> B) (P : B -> bool) (f : B -> Z) l :
  sum_where P f (map h l) = sum_where (fun x => P (h x)) (fun x => f (h x)) l.
Proof.
  induction l as [|x l IH]; simpl; [reflexivity|]. rewrite IH. reflexivity.
Qed.

Lemma percent_zero_budget (u b : Z) : b <= 0 -> percent u b = 0%Q.
Proof.
  intros H. unfold percent. destruct (Z.ltb_spec 0 b); [lia|reflexivity].
Qed.

(** C6.  [calculatePeriodSummary]: the budgeted total is the sum of
    [budgetAmount] over exactly the portions of the period, the expense
    total the sum of [amount] over exactly the expenses of the period,
    whatever portion they name; the other fields derive from the two totals
    and the income, and the percentage is 0 when nothing is budgeted. *)
Theorem calculatePeriodSummary_totals :
  forall (period : Period.t) (portions : list Portion.t)
         (expenses : list Expense.t),
    let s := calculatePeriodSummary period portions expenses in
    PeriodSummary.totalBudgeted s
      = sum_where (fun p => (Portion.periodId p =? Period.id period)%string)
                  Portion.budgetAmount portions
    /\ PeriodSummary.totalExpenses s
      = sum_where (fun e => (Expense.periodId e =? Period.id period)%string)
                  Expense.amount expenses
    /\ (forall relabel : Expense.t -> string,
          PeriodSummary.totalExpenses
            (calculatePeriodSummary period portions
               (map (fun e => Expense.mk (Expense.id e) (Expense.periodId e)
                                (relabel e) (Expense.date e)
                                (Expense.description e) (Expense.amount e))
                    expenses))
          = PeriodSummary.totalExpenses s)
    /\ PeriodSummary.totalIncome s = Period.incomeAmount period
    /\ PeriodSummary.remainingBudget s
      = PeriodSummary.totalBudgeted s - PeriodSummary.totalExpenses s
    /\ PeriodSummary.remainingIncome s
      = PeriodSummary.totalIncome s - PeriodSummary.totalExpenses s
    /\ PeriodSummary.unallocatedIncome s
      = PeriodSummary.totalIncome s - PeriodSummary.totalBudgeted s
    /\ PeriodSummary.isOverBudget s
      = (PeriodSummary.totalExpenses s >? PeriodSummary.totalBudgeted s)
    /\ (PeriodSummary.totalBudgeted s = 0 ->
        PeriodSummary.overallPercentUsed s = 0%Q).
Proof.
  intros period portions expenses s. subst s.
  unfold calculatePeriodSummary; simpl.
  rewrite !reduce_sum_filter.
  repeat split; try reflexivity.
  - intros relabel. rewrite !reduce_sum_filter, sum_where_map. reflexivity.
  - symmetry. apply Z.gtb_ltb.
  - intros H. apply percent_zero_budget. lia.
Qed.

(** C7.  [calculatePortionSummary]: when the portion has budget [B] and the
    expenses that name it sum to [U], the summary has [used = U],
    [remaining = B - U], [isOverBudget = (U > B)], and a percentage of
    exactly 0 when [B = 0]. *)
Theorem calculatePortionSummary_fields :
  forall (portion : Portion.t) (expenses : list Expense.t) (B U : Z),
    Portion.budgetAmount portion = B ->
    sum_where (fun e => (Expense.portionId e =? Portion.id portion)%string)
              Expense.amount expenses = U ->
    let s := calculatePortionSummary portion expenses in
    PortionSummary.used s = U
    /\ PortionSummary.remaining s = B - U
    /\ PortionSummary.isOverBudget s = (U >? B)
    /\ PortionSummary.budget s = B
    /\ (B = 0 -> PortionSummary.percentUsed s = 0%Q).
Proof.
  intros portion expenses B U HB HU s. subst s B U.
  unfold calculatePortionSummary; simpl.
  rewrite !reduce_sum_filter.
  repeat split; try reflexivity.
  - symmetry. apply Z.gtb_ltb.
  - intros H. apply percent_zero_budget. lia.
Qed.

(** *** The facade: delete, mutations, filtered expenses *)

Lemma differs_true (a b : string) : differs a b = true <-> a <> b.
Proof.
  unfold differs. destruct (String.eqb_spec a b) as [->|H]; simpl.
  - split; [discriminate|intros H; exfalso; apply H; reflexivity].
  - split; [intros _; exact H|reflexivity].
Qed.

Lemma filter_filter {A} (P Q : A -> bool) (l : list A) :
  filter P (filter Q l) = filter (fun x => Q x && P x) l.
Proof.
  induction l as [|x l IH]; simpl; [reflexivity|].
  destruct (Q x); simpl; [destruct (P x)|]; rewrite IH; reflexivity.
Qed.

Lemma filter_disjoint {A} (P Q : A -> bool) (l : list A) :
  (forall x, P x = true -> Q x = true) ->
  filter P (filter Q l) = filter P l.
Proof.
  intros H. rewrite filter_filter. apply filter_ext. intros x.
  destruct (P x) eqn:E; [rewrite (H x E)|rewrite andb_false_r]; reflexivity.
Qed.

(** C2, as the code has it.  [deletePeriod] removes the periods with the
    given id, the portions and the expenses of that period, and nothing
    else: what belongs to another period stays, in its order.  The active
    period becomes the first remaining period, or unset when none remains,
    whichever period was active before. *)
Theorem deletePeriod_cascade :
  forall (prev : AppData.t) (periodId : string),
  exists next : AppData.t,
    deletePeriod periodId (Some prev) = Some next
    /\ (forall p, In p (AppData.periods next) <->
                  In p (AppData.periods prev) /\ Period.id p <> periodId)
    /\ (forall p, In p (AppData.portions next) <->
                  In p (AppData.portions prev) /\ Portion.periodId p <> periodId)
    /\ (forall e, In e (AppData.expenses next) <->
                  In e (AppData.expenses prev) /\ Expense.periodId e <> periodId)
    /\ (forall other, other <> periodId ->
          filter (fun p => (Period.id p =? other)%string) (AppData.periods next)
          = filter (fun p => (Period.id p =? other)%string) (AppData.periods prev)
          /\ filter (fun p => (Portion.periodId p =? other)%string)
               (AppData.portions next)
             = filter (fun p => (Portion.periodId p =? other)%string)
                 (AppData.portions prev)
          /\ filter (fun e => (Expense.periodId e =? other)%string)
               (AppData.expenses next)
             = filter (fun e => (Expense.periodId e =? other)%string)
                 (AppData.expenses prev))
    /\ AppData.activePeriodId next
       = option_map Period.id (hd_error (AppData.periods next))
    /\ AppData.version next = AppData.version prev
    /\ AppData.createdAt next = AppData.createdAt prev
    /\ AppData.lastUsedAt next = AppData.lastUsedAt prev.
Proof.
  intros prev periodId. eexists. split; [reflexivity|]. simpl.
  repeat match goal with |- _ /\ _ => split end; try reflexivity.
  - intros p. rewrite filter_In, differs_true. tauto.
  - intros p. rewrite filter_In, differs_true. tauto.
  - intros e. rewrite filter_In, differs_true. tauto.
  - intros other Hother.
    repeat split; apply filter_disjoint; intros x Hx; apply differs_true;
      apply String.eqb_eq in Hx; congruence.
  - destruct (filter _ (AppData.periods prev)); reflexivity.
Qed.

(** C2 as stated fails: deleting a period that is not the active one still
    moves the active period to the first remaining one. *)
Lemma deletePeriod_moves_active :
  ~ (forall (prev next : AppData.t) (periodId : string),
       deletePeriod periodId (Some prev) = Some next ->
       AppData.activePeriodId prev <> Some periodId ->
       AppData.activePeriodId next = AppData.activePeriodId prev).
Proof.
  intros H.
  pose (prev :=
    AppData.mk "v1" "2025-11-01T00:00:00.000Z" "2025-11-02T00:00:00.000Z"
      [Period.mk "p1" "Oct 2025" "2025-10-01" "2025-10-31" 10000000;
       Period.mk "p2" "Nov 2025" "2025-11-01" "2025-11-30" 10000000;
       Period.mk "p3" "Dec 2025" "2025-12-01" "2025-12-31" 10000000]
      [] [] (Some "p2")).
  specialize (H prev _ "p3" eq_refl). simpl in H.
  assert (E : Some "p1" = Some "p2") by (apply H; discriminate).
  discriminate E.
Qed.

(** C10, first half.  None of the ten mutations of the hook touches
    [version] or [createdAt]; on a hook that holds no data they do
    nothing. *)
Lemma updater_keeps_version_createdAt :
  forall (m : Mutation) (prev : AppData.t),
  exists next : AppData.t,
    updater m (Some prev) = Some next
    /\ AppData.version next = AppData.version prev
    /\ AppData.createdAt next = AppData.createdAt prev.
Proof.
  intros m prev. destruct m; simpl; eexists; repeat split.
Qed.

Lemma updater_none (m : Mutation) : updater m None = None.
Proof. destruct m; reflexivity. Qed.

(** *** Sorting *)

Section Sort.
Context {A : Type} (cmp : A -> A -> Z).

Lemma insert_by_perm (x : A) (l : list A) :
  Permutation (insert_by cmp x l) (x :: l).
Proof.
  induction l as [|y t IH]; simpl; [apply Permutation_refl|].
  destruct (0 <? cmp x y).
  - apply perm_trans with (y :: x :: t).
    + apply perm_skip, IH.
    + apply perm_swap.
  - apply Permutation_refl.
Qed.

Lemma sort_by_perm (l : list A) : Permutation (sort_by cmp l) l.
Proof.
  induction l as [|x l IH]; simpl; [apply perm_nil|].
  apply perm_trans with (x :: sort_by cmp l).
  - apply insert_by_perm.
  - apply perm_skip, IH.
Qed.

Lemma insert_by_Forall (P : A -> Prop) (x : A) (l : list A) :
  P x -> Forall P l -> Forall P (insert_by cmp x l).
Proof.
  intros Hx Hl. induction Hl as [|y t Hy Ht IH]; simpl.
  - constructor; [exact Hx|constructor].
  - destruct (0 <? cmp x y); constructor; auto.
Qed.

Hypothesis cmp_total : forall a b, 0 < cmp a b -> cmp b a <= 0.
Hypothesis cmp_trans :
  forall a b c, cmp a b <= 0 -> cmp b c <= 0 -> cmp a c <= 0.

(** Sorted: the comparator lets each item stand before all that follow. *)
Lemma insert_by_sorted (x : A) (l : list A) :
  StronglySorted (fun a b => cmp a b <= 0) l ->
  StronglySorted (fun a b => cmp a b <= 0) (insert_by cmp x l).
Proof.
  intros Hl. induction Hl as [|y t Ht IH Hy]; simpl.
  - constructor; constructor.
  - destruct (Z.ltb_spec 0 (cmp x y)) as [Hgt|Hle].
    + constructor; [exact IH|].
      apply insert_by_Forall; [apply cmp_total; exact Hgt|exact Hy].
    + constructor; [constructor; assumption|].
      constructor; [exact Hle|].
      eapply Forall_impl; [|exact Hy].
      intros z Hz. apply cmp_trans with y; assumption.
Qed.

Lemma sort_by_sorted (l : list A) :
  StronglySorted (fun a b => cmp a b <= 0) (sort_by cmp l).
Proof.
  induction l as [|x l IH]; simpl; [constructor|].
  apply insert_by_sorted, IH.
Qed.

End Sort.

Lemma filter_if_spec {A} (x : option string) (keep : string -> A -> bool)
    (l : list A) :
  filter_if x keep l
  = filter (fun a => match x with Some s => keep s a | None => true end) l.
Proof.
  destruct x; simpl; [reflexivity|].
  induction l as [|a l IH]; simpl; [reflexivity|]. rewrite <- IH. reflexivity.
Qed.

Lemma nonempty_provided (x : option string) : nonempty x = provided x.
Proof. destruct x as [[|c r]|]; reflexivity. Qed.

(** C8.  With an active period (its id a non-empty string) and a
    consistent [localeCompare], [getFilteredExpenses] with the start date
    [lo], the end date [hi] and the portion [p] returns exactly the
    expenses of the active period whose date lies in the inclusive range
    of the provided bounds and whose portion is the provided one, each as
    often as the store holds it, most recent date first.  A bound or a
    portion is provided when it is a string that is not empty; no filter
    object at all is the same as one with no field. *)
Theorem getFilteredExpenses_exact_sorted :
  forall (pf : Platform) (data : AppData.t) (active : string)
         (lo hi p : option string),
    AppData.activePeriodId data = Some active ->
    active <> "" ->
    consistent (localeCompare pf) ->
    let result :=
      getFilteredExpenses pf (Some data) (Some (mkFilters lo hi p)) in
    let wanted := fun e =>
      (Expense.periodId e =? active)%string
      && in_range (provided lo) (provided hi) (Expense.date e)
      && in_portion (provided p) e in
    Permutation result (filter wanted (AppData.expenses data))
    /\ (forall e, In e result <-> In e (AppData.expenses data) /\ wanted e = true)
    /\ StronglySorted
         (fun a b => 0 <= localeCompare pf (Expense.date a) (Expense.date b))
         result
    /\ getFilteredExpenses pf (Some data) None
       = getFilteredExpenses pf (Some data) (Some (mkFilters None None None)).
Proof.
  intros pf data active lo hi p Hactive Hne (Hrefl & Hanti & Htrans)
    result wanted.
  assert (Hact : nonempty (AppData.activePeriodId data) = Some active).
  { rewrite Hactive. unfold nonempty.
    destruct (String.eqb_spec active ""); [contradiction|reflexivity]. }
  subst result. unfold getFilteredExpenses. rewrite Hact.
  unfold given. cbn [startDate endDate portionId].
  rewrite !nonempty_provided.
  rewrite !filter_if_spec, !filter_filter.
  set (kept := filter _ (AppData.expenses data)).
  assert (Hkept : kept = filter wanted (AppData.expenses data)).
  { subst kept wanted. apply filter_ext. intros e. unfold in_range, in_portion.
    rewrite !andb_assoc. reflexivity. }
  assert (Hperm : Permutation (sort_by
            (fun a b => localeCompare pf (Expense.date b) (Expense.date a)) kept)
            (filter wanted (AppData.expenses data))).
  { rewrite <- Hkept. apply sort_by_perm. }
  split; [exact Hperm|]. split; [|split; [|reflexivity]].
  - intros e. rewrite <- filter_In. split; intros H.
    + eapply Permutation_in; [exact Hperm|exact H].
    + eapply Permutation_in; [apply Permutation_sym; exact Hperm|exact H].
  - eapply StronglySorted_ind with
      (P := fun l => StronglySorted
              (fun a b => 0 <= localeCompare pf (Expense.date a) (Expense.date b)) l).
    3: { apply (sort_by_sorted
                  (fun a b => localeCompare pf (Expense.date b) (Expense.date a))).
         - intros a b H. apply Hanti in H. lia.
         - intros a b c H1 H2. apply Htrans with (Expense.date b); assumption. }
    + constructor.
    + intros a l _ IH Hall. constructor; [exact IH|].
      eapply Forall_impl; [|exact Hall]. cbv beta. intros b Hb.
      destruct (Z.ltb_spec (localeCompare pf (Expense.date a) (Expense.date b)) 0)
        as [Hlt|Hge]; [|exact Hge].
      apply Hanti in Hlt. lia.
Qed.

(** *** JSON: the text that [stringify] prints parses back *)

Lemma JSON_ind (P : JSON -> Prop) :
  P JNull ->
  (forall b, P (JBool b)) ->
  (forall n, P (JNum n)) ->
  (forall s, P (JStr s)) ->
  (forall l, Forall P l -> P (JArr l)) ->
  (forall o, Forall (fun kv => P (snd kv)) o -> P (JObj o)) ->
  forall v, P v.
Proof.
  intros Hnull Hbool Hnum Hstr Harr Hobj.
  fix IH 1. intros [ | b | n | s | l | o].
  - exact Hnull.
  - apply Hbool.
  - apply Hnum.
  - apply Hstr.
  - apply Harr. induction l as [|x l IHl]; constructor; [apply IH|exact IHl].
  - apply Hobj. induction o as [|[k x] o IHo]; constructor; [apply IH|exact IHo].
Qed.

Lemma append_assoc (a b c : string) : ((a ++ b) ++ c = a ++ (b ++ c))%string.
Proof. induction a as [|x a IH]; simpl; [reflexivity|]. rewrite IH. reflexivity. Qed.

Lemma append_empty_r (a : string) : (a ++ "")%string = a.
Proof. induction a as [|x a IH]; simpl; [reflexivity|]. rewrite IH. reflexivity. Qed.

Lemma length_append (a b : string) :
  String.length (a ++ b) = (String.length a + String.length b)%nat.
Proof. induction a as [|x a IH]; simpl; [reflexivity|]. rewrite IH. reflexivity. Qed.

Lemma blank_append (a b : string) :
  blank (a ++ b) = blank a && blank b.
Proof.
  induction a as [|x a IH]; simpl; [reflexivity|].
  rewrite IH. apply andb_assoc.
Qed.

Lemma skip_ws_blank (ws s : string) :
  blank ws = true -> skip_ws (ws ++ s) = skip_ws s.
Proof.
  induction ws as [|c ws IH]; simpl; [reflexivity|].
  intros H. apply andb_true_iff in H as [Hc Hws]. rewrite Hc. apply IH, Hws.
Qed.

Lemma skip_ws_length (s : string) :
  (String.length (skip_ws s) <= String.length s)%nat.
Proof.
  induction s as [|c s IH]; simpl; [lia|].
  destruct (is_ws c); simpl; lia.
Qed.

(** **** Strings *)

Lemma parse_chars_quote_char (c : ascii) (tail : string) :
  parse_chars (quote_char c ++ tail) = cons_char c (parse_chars tail).
Proof.
  destruct c as [[] [] [] [] [] [] [] []]; reflexivity.
Qed.

Lemma parse_chars_quote_body (s rest : string) :
  parse_chars (quote_body s ++ String dquote rest) = Some (s, rest).
Proof.
  induction s as [|c s IH]; simpl; [reflexivity|].
  rewrite append_assoc, parse_chars_quote_char, IH. reflexivity.
Qed.

Lemma quote_shape (s rest : string) :
  (quote s ++ rest)%string = String dquote (quote_body s ++ String dquote rest).
Proof. unfold quote. simpl. rewrite append_assoc. reflexivity. Qed.

(** **** Numbers *)

Lemma parse_digits_string_of_uint (u : Decimal.uint) (rest : string) :
  closes rest = true ->
  parse_digits (string_of_uint u ++ rest) = (u, rest).
Proof.
  intros Hrest.
  induction u as [|u IH|u IH|u IH|u IH|u IH|u IH|u IH|u IH|u IH|u IH];
    simpl; try (rewrite IH; reflexivity).
  destruct rest as [|c r]; [reflexivity|].
  simpl in *. unfold digit_of.
  destruct (code c) as [|p]; [discriminate|].
  do 7 (destruct p as [p|p|]; try discriminate; try reflexivity).
Qed.

Lemma to_int_normal (n : Z) :
  Decimal.unorm (Decimal.abs (Z.to_int n)) = Decimal.abs (Z.to_int n).
Proof.
  rewrite <- (DecimalZ.of_to n) at 2.
  rewrite DecimalZ.to_of, DecimalFacts.abs_norm. reflexivity.
Qed.

Lemma uint_beq_refl (u : Decimal.uint) : Decimal.uint_beq u u = true.
Proof. apply Decimal.internal_uint_dec_lb. reflexivity. Qed.

Lemma parse_uint_string_of_uint (u : Decimal.uint) (rest : string) :
  closes rest = true ->
  Decimal.unorm u = u ->
  parse_uint (string_of_uint u ++ rest) = Some (u, rest).
Proof.
  intros Hrest Hu. unfold parse_uint.
  rewrite (parse_digits_string_of_uint u rest Hrest), Hu, uint_beq_refl.
  destruct rest as [|c r]; [reflexivity|].
  simpl in Hrest.
  destruct (Ascii.eqb_spec c "."); [subst; discriminate|].
  destruct (Ascii.eqb_spec c "e"); [subst; discriminate|].
  destruct (Ascii.eqb_spec c "E"); [subst; discriminate|].
  reflexivity.
Qed.

Lemma parse_number_string_of_Z (n : Z) (rest : string) :
  closes rest = true ->
  parse_number (string_of_Z n ++ rest) = Parsed (JNum n) rest.
Proof.
  intros Hrest. unfold string_of_Z.
  pose proof (to_int_normal n) as Hnorm.
  pose proof (DecimalZ.of_to n) as Hof.
  destruct (Z.to_int n) as [u|u]; simpl in Hnorm.
  - assert (Hparse := parse_uint_string_of_uint u rest Hrest Hnorm).
    unfold parse_number.
    destruct (string_of_uint u ++ rest)%string as [|c r] eqn:E.
    + vm_compute in Hparse. discriminate Hparse.
    + destruct (Ascii.eqb_spec c "-") as [->|Hc].
      * exfalso. destruct u; simpl in E; try discriminate E.
        discriminate Hnorm.
      * rewrite Hparse, Hof. reflexivity.
  - change (parse_number (String "-" (string_of_uint u) ++ rest))
      with (match parse_uint (string_of_uint u ++ rest) with
            | Some (u0, rest0) => Parsed (JNum (Z.of_int (Decimal.Neg u0))) rest0
            | None => SyntaxError
            end).
    rewrite (parse_uint_string_of_uint u rest Hrest Hnorm), Hof.
    reflexivity.
Qed.

(** **** Values *)

Lemma opens_facts (c : ascii) :
  opens c = true ->
  is_ws c = false /\ (c =? "]")%char = false /\ (c =? "}")%char = false
  /\ (c =? ",")%char = false.
Proof.
  destruct c as [[] [] [] [] [] [] [] []]; vm_compute; intros H;
    try discriminate H; repeat split.
Qed.

Lemma string_of_Z_head (n : Z) :
  exists c t, string_of_Z n = String c t /\ numeric c = true.
Proof.
  unfold string_of_Z. pose proof (to_int_normal n) as Hnorm.
  destruct (Z.to_int n) as [u|u]; simpl in Hnorm.
  - destruct u; try discriminate Hnorm; simpl; eexists; eexists;
      (split; [reflexivity|reflexivity]).
  - eexists; eexists; split; reflexivity.
Qed.

Lemma serialize_head (gap indent : string) (v : JSON) :
  exists c t, serialize gap indent v = String c t /\ opens c = true.
Proof.
  destruct v as [ | [] | n | s | [|x l] | [|[k x] o]];
    try (simpl; eexists; eexists; split; reflexivity).
  destruct (string_of_Z_head n) as (c & t & E & Hc).
  exists c, t. split; [exact E|].
  destruct c as [[] [] [] [] [] [] [] []]; try discriminate Hc; reflexivity.
Qed.

Lemma parse_value_blank (fuel : nat) (w s : string) :
  blank w = true -> parse_value fuel (w ++ s) = parse_value fuel s.
Proof.
  intros H. destruct fuel; [reflexivity|]. simpl.
  rewrite (skip_ws_blank w s H). reflexivity.
Qed.

Lemma parse_value_number (fuel : nat) (n : Z) (rest : string) :
  closes rest = true ->
  parse_value (S fuel) (string_of_Z n ++ rest) = Parsed (JNum n) rest.
Proof.
  intros Hrest. rewrite <- (parse_number_string_of_Z n rest Hrest).
  destruct (string_of_Z_head n) as (c & t & -> & Hc).
  destruct c as [[] [] [] [] [] [] [] []]; try discriminate Hc; reflexivity.
Qed.

Lemma parse_elements_S (fuel : nat) (s : string) :
  parse_elements (S fuel) s
  = match parse_value fuel s with
    | Parsed v r =>
        match after "," (skip_ws r) with
        | Some r' =>
            match parse_elements fuel r' with
            | Parsed vs r'' => Parsed (v :: vs) r''
            | SyntaxError => SyntaxError
            | OutOfFuel => OutOfFuel
            end
        | None =>
            match after "]" (skip_ws r) with
            | Some r' => Parsed [v] r'
            | None => SyntaxError
            end
        end
    | SyntaxError => SyntaxError
    | OutOfFuel => OutOfFuel
    end.
Proof. reflexivity. Qed.

Lemma parse_elements_printed (ser : JSON -> string) (w0 w2 : string) :
  blank w0 = true -> blank w2 = true ->
  forall l, l <> [] ->
  Forall (fun x => exists n, forall fuel rest, (n <= fuel)%nat ->
            closes rest = true ->
            parse_value fuel (ser x ++ rest) = Parsed x rest) l ->
  exists n, forall fuel rest, (n <= fuel)%nat ->
    closes (w2 ++ String "]" rest) = true ->
    parse_elements fuel
      (w0 ++ join (String "," w0) (map ser l) ++ w2 ++ String "]" rest)
    = Parsed l rest.
Proof.
  intros Hw0 Hw2 l. induction l as [|x l IH]; [congruence|].
  intros _ Hall. inversion Hall as [|? ? (nx & Hx) Hl]; subst.
  destruct l as [|y l'].
  - exists (S nx). intros fuel rest Hf Hclose. destruct fuel as [|f]; [lia|].
    rewrite parse_elements_S. cbn [map join].
    rewrite parse_value_blank by exact Hw0.
    rewrite Hx by (lia || exact Hclose).
    rewrite skip_ws_blank by exact Hw2. reflexivity.
  - destruct (IH ltac:(discriminate) Hl) as (nl & Hnl).
    exists (S (Nat.max nx nl)). intros fuel rest Hf Hclose.
    destruct fuel as [|f]; [lia|].
    rewrite parse_elements_S.
    change (join (String "," w0) (map ser (x :: y :: l')))
      with (ser x ++ String "," w0 ++ join (String "," w0) (map ser (y :: l')))%string.
    rewrite parse_value_blank by exact Hw0.
    rewrite !append_assoc.
    change ((String "," w0 ++ ?a)%string) with (String "," (w0 ++ a)).
    rewrite Hx by (lia || reflexivity).
    change (skip_ws (String "," ?a)) with (String "," a).
    change (after "," (String "," ?a)) with (Some a).
    cbv beta iota. rewrite Hnl by (lia || exact Hclose). reflexivity.
Qed.

Lemma parse_members_S (fuel : nat) (acc : list (string * JSON)) (s : string) :
  parse_members (S fuel) acc s
  = match after dquote (skip_ws s) with
    | Some r =>
        match parse_chars r with
        | Some (k, r1) =>
            match after ":" (skip_ws r1) with
            | Some r2 =>
                match parse_value fuel r2 with
                | Parsed v r3 =>
                    match after "," (skip_ws r3) with
                    | Some r4 => parse_members fuel (set_prop acc k v) r4
                    | None =>
                        match after "}" (skip_ws r3) with
                        | Some r4 => Parsed (set_prop acc k v) r4
                        | None => SyntaxError
                        end
                    end
                | SyntaxError => SyntaxError
                | OutOfFuel => OutOfFuel
                end
            | None => SyntaxError
            end
        | None => SyntaxError
        end
    | None => SyntaxError
    end.
Proof. reflexivity. Qed.

Lemma set_prop_fresh (o : list (string * JSON)) (k : string) (v : JSON) :
  mem_string k (map fst o) = false -> set_prop o k v = (o ++ [(k, v)])%list.
Proof.
  induction o as [|[k' v'] o IH]; simpl; [reflexivity|].
  intros H. apply orb_false_iff in H as [Hk Ho].
  rewrite Hk, IH by exact Ho. reflexivity.
Qed.

Lemma mem_string_app (k : string) (a b : list string) :
  mem_string k (a ++ b)%list = mem_string k a || mem_string k b.
Proof.
  induction a as [|x a IH]; simpl; [reflexivity|].
  rewrite IH. apply orb_assoc.
Qed.

Lemma nodup_strings_snoc (a : list string) (k : string) (b : list string) :
  nodup_strings (a ++ k :: b)%list = true ->
  mem_string k a = false /\ nodup_strings ((a ++ [k]) ++ b)%list = true.
Proof.
  induction a as [|x a IH]; simpl.
  - intros H. split; [reflexivity|exact H].
  - intros H. apply andb_true_iff in H as [Hx Ha].
    destruct (IH Ha) as [Hk Hnd]. rewrite Hnd, andb_true_r.
    rewrite <- app_assoc. simpl. rewrite Hx. split; [|reflexivity].
    rewrite mem_string_app in Hx. simpl in Hx.
    apply negb_true_iff, orb_false_iff in Hx as [_ Hx].
    apply orb_false_iff in Hx as [Hx _].
    rewrite Hk, orb_false_r. rewrite String.eqb_sym. exact Hx.
Qed.

Lemma parse_members_printed (ser : JSON -> string) (colon w0 w2 : string) :
  blank w0 = true -> blank w2 = true -> blank colon = true ->
  forall o acc, o <> [] ->
  nodup_strings (map fst (acc ++ o)%list) = true ->
  Forall (fun kv => exists n, forall fuel rest, (n <= fuel)%nat ->
            closes rest = true ->
            parse_value fuel (ser (snd kv) ++ rest) = Parsed (snd kv) rest) o ->
  exists n, forall fuel rest, (n <= fuel)%nat ->
    closes (w2 ++ String "}" rest) = true ->
    parse_members fuel acc
      (w0 ++ join (String "," w0)
               (map (fun kv => quote (fst kv) ++ String ":" colon ++ ser (snd kv)) o)
          ++ w2 ++ String "}" rest)
    = Parsed (acc ++ o)%list rest.
Proof.
  intros Hw0 Hw2 Hcolon o. induction o as [|[k x] o IH]; [congruence|].
  intros acc _ Hnd Hall. inversion Hall as [|? ? (nx & Hx) Ho]; subst.
  simpl in Hx. rewrite map_app in Hnd. simpl in Hnd.
  apply nodup_strings_snoc in Hnd as [Hk Hnd].
  destruct o as [|y o'].
  - exists (S nx). intros fuel rest Hf Hclose. destruct fuel as [|f]; [lia|].
    rewrite parse_members_S. cbn [map join fst snd].
    rewrite skip_ws_blank by exact Hw0.
    rewrite !append_assoc, quote_shape.
    change (skip_ws (String dquote ?a)) with (String dquote a).
    change (after dquote (String dquote ?a)) with (Some a).
    cbv beta iota. rewrite parse_chars_quote_body.
    change ((String ":" colon ++ ?a)%string) with (String ":" (colon ++ a)).
    change (skip_ws (String ":" ?a)) with (String ":" a).
    change (after ":" (String ":" ?a)) with (Some a).
    cbv beta iota. rewrite parse_value_blank by exact Hcolon.
    rewrite Hx by (lia || exact Hclose).
    rewrite skip_ws_blank by exact Hw2.
    rewrite set_prop_fresh by exact Hk. reflexivity.
  - destruct (IH (acc ++ [(k, x)])%list ltac:(discriminate)) as (no & Hno).
    { rewrite map_app, map_app. exact Hnd. }
    { exact Ho. }
    exists (S (Nat.max nx no)). intros fuel rest Hf Hclose.
    destruct fuel as [|f]; [lia|].
    rewrite parse_members_S.
    change (join (String "," w0)
              (map (fun kv => quote (fst kv) ++ String ":" colon ++ ser (snd kv))%string
                   ((k, x) :: y :: o')))
      with ((quote k ++ String ":" colon ++ ser x)
              ++ String "," w0
              ++ join (String "," w0)
                   (map (fun kv => quote (fst kv) ++ String ":" colon ++ ser (snd kv))
                        (y :: o')))%string.
    rewrite skip_ws_blank by exact Hw0.
    rewrite !append_assoc, quote_shape.
    change (skip_ws (String dquote ?a)) with (String dquote a).
    change (after dquote (String dquote ?a)) with (Some a).
    cbv beta iota. rewrite parse_chars_quote_body.
    change ((String ":" colon ++ ?a)%string) with (String ":" (colon ++ a)).
    change (skip_ws (String ":" ?a)) with (String ":" a).
    change (after ":" (String ":" ?a)) with (Some a).
    cbv beta iota. rewrite parse_value_blank by exact Hcolon.
    rewrite ?append_assoc.
    change ((String "," w0 ++ ?a)%string) with (String "," (w0 ++ a)).
    rewrite Hx by (lia || reflexivity).
    change (skip_ws (String "," ?a)) with (String "," a).
    change (after "," (String "," ?a)) with (Some a).
    cbv beta iota. rewrite set_prop_fresh by exact Hk.
    rewrite Hno by (lia || exact Hclose). rewrite <- app_assoc. reflexivity.
Qed.

Lemma parse_value_S (fuel : nat) (s : string) :
  parse_value (S fuel) s
  = match skip_ws s with
    | "" => SyntaxError
    | String c r =>
        if (c =? "{")%char then
          match after "}" (skip_ws r) with
          | Some r' => Parsed (JObj []) r'
          | None =>
              match parse_members fuel [] r with
              | Parsed o r' => Parsed (JObj o) r'
              | SyntaxError => SyntaxError
              | OutOfFuel => OutOfFuel
              end
          end
        else if (c =? "[")%char then
          match after "]" (skip_ws r) with
          | Some r' => Parsed (JArr []) r'
          | None =>
              match parse_elements fuel r with
              | Parsed l r' => Parsed (JArr l) r'
              | SyntaxError => SyntaxError
              | OutOfFuel => OutOfFuel
              end
          end
        else if (c =? dquote)%char then
          match parse_chars r with
          | Some (str, r') => Parsed (JStr str) r'
          | None => SyntaxError
          end
        else if (c =? "n")%char then parse_literal "ull" JNull r
        else if (c =? "t")%char then parse_literal "rue" (JBool true) r
        else if (c =? "f")%char then parse_literal "alse" (JBool false) r
        else parse_number (String c r)
    end.
Proof. reflexivity. Qed.

(** **** The parser consumes what it reads *)

Lemma after_length (c : ascii) (s r : string) :
  after c s = Some r -> String.length s = S (String.length r).
Proof.
  destruct s as [|c' s]; simpl; [discriminate|].
  destruct (c' =? c)%char; [|discriminate]. intros H; inversion H; reflexivity.
Qed.

Lemma parse_chars_length (s k r : string) :
  parse_chars s = Some (k, r) -> (String.length r < String.length s)%nat.
Proof.
  remember (String.length s) as n eqn:Hn. revert s k r Hn.
  induction n as [n IH] using lt_wf_ind. intros s k r Hn H.
  destruct s as [|c s]; [discriminate H|]. simpl in Hn, H.
  destruct (c =? dquote)%char.
  { inversion H; subst. lia. }
  destruct (c =? backslash)%char.
  - destruct s as [|e s]; [discriminate H|].
    destruct (e =? "u")%char.
    + destruct s as [|h1 [|h2 [|h3 [|h4 s]]]]; try discriminate H.
      destruct (hex4 h1 h2 h3 h4) as [m|]; [|discriminate H].
      destruct (m <? 256)%N; [|discriminate H].
      destruct (parse_chars s) as [[k' r']|] eqn:E; [|discriminate H].
      simpl in H. inversion H; subst.
      assert (String.length r < String.length s)%nat
        by (eapply (IH (String.length s)); [simpl; lia|reflexivity|exact E]).
      simpl. lia.
    + destruct (unescape e); [|discriminate H].
      destruct (parse_chars s) as [[k' r']|] eqn:E; [|discriminate H].
      simpl in H. inversion H; subst.
      assert (String.length r < String.length s)%nat
        by (eapply (IH (String.length s)); [simpl; lia|reflexivity|exact E]).
      simpl. lia.
  - destruct (code c <? 32)%N; [discriminate H|].
    destruct (parse_chars s) as [[k' r']|] eqn:E; [|discriminate H].
    simpl in H. inversion H; subst.
    assert (String.length r < String.length s)%nat
      by (eapply (IH (String.length s)); [lia|reflexivity|exact E]).
    lia.
Qed.

Lemma parse_digits_length (s : string) (u : Decimal.uint) (r : string) :
  parse_digits s = (u, r) ->
  (String.length r <= String.length s)%nat
  /\ (u <> Decimal.Nil -> (String.length r < String.length s)%nat).
Proof.
  revert u r. induction s as [|c s IH]; intros u r H; simpl in H.
  - inversion H; subst. split; [lia|congruence].
  - destruct (digit_of c) as [d|].
    + destruct (parse_digits s) as [u' r'] eqn:E. inversion H; subst.
      destruct (IH u' r eq_refl) as [Hle _]. simpl. split; lia.
    + inversion H; subst. split; [lia|congruence].
Qed.

Lemma parse_uint_length (s : string) (u : Decimal.uint) (r : string) :
  parse_uint s = Some (u, r) -> (String.length r < String.length s)%nat.
Proof.
  unfold parse_uint. destruct (parse_digits s) as [u' r'] eqn:E.
  destruct (Decimal.uint_beq (Decimal.unorm u') u') eqn:Hn; [|discriminate].
  apply Decimal.internal_uint_dec_bl in Hn.
  intros H.
  assert (r' = r) as ->.
  { destruct r' as [|c t]; [inversion H; reflexivity|].
    destruct ((c =? ".") || (c =? "e") || (c =? "E"))%char; [discriminate H|].
    inversion H; reflexivity. }
  apply (parse_digits_length s u' r E).
  intros ->. discriminate Hn.
Qed.

Lemma parse_number_length (s : string) (v : JSON) (r : string) :
  parse_number s = Parsed v r -> (String.length r < String.length s)%nat.
Proof.
  unfold parse_number. destruct s as [|c s]; [discriminate|].
  destruct (c =? "-")%char.
  - destruct (parse_uint s) as [[u r']|] eqn:E; [|discriminate].
    intros H; inversion H; subst. apply parse_uint_length in E. simpl. lia.
  - destruct (parse_uint (String c s)) as [[u r']|] eqn:E; [|discriminate].
    intros H; inversion H; subst. apply parse_uint_length in E. exact E.
Qed.

Lemma expect_length (lit s r : string) :
  expect lit s = Some r -> (String.length r <= String.length s)%nat.
Proof.
  revert s. induction lit as [|c lit IH]; intros s H; simpl in H.
  - inversion H; subst. lia.
  - destruct s as [|c' s]; [discriminate H|].
    destruct (c =? c')%char; [|discriminate H].
    apply IH in H. simpl. lia.
Qed.

Lemma parse_literal_length (lit : string) (v v' : JSON) (s r : string) :
  parse_literal lit v s = Parsed v' r ->
  (String.length r <= String.length s)%nat.
Proof.
  unfold parse_literal. destruct (expect lit s) eqn:E; [|discriminate].
  intros H; inversion H; subst. eapply expect_length, E.
Qed.

Lemma skip_ws_head (s : string) (c : ascii) (r : string) :
  skip_ws s = String c r -> (String.length r < String.length s)%nat.
Proof.
  intros H. pose proof (skip_ws_length s) as Hle. rewrite H in Hle.
  simpl in Hle. lia.
Qed.

Ltac lengths :=
  repeat match goal with
  | H : after _ (skip_ws ?s) = Some _ |- _ =>
      apply after_length in H; pose proof (skip_ws_length s)
  | H : after _ _ = Some _ |- _ => apply after_length in H
  | H : skip_ws _ = String _ _ |- _ => apply skip_ws_head in H
  | H : parse_chars _ = Some _ |- _ => apply parse_chars_length in H
  | H : parse_number _ = Parsed _ _ |- _ => apply parse_number_length in H
  | H : parse_literal _ _ _ = Parsed _ _ |- _ => apply parse_literal_length in H
  end.

Lemma parse_progress (fuel : nat) :
  (forall s v r, parse_value fuel s = Parsed v r ->
                 (String.length r < String.length s)%nat)
  /\ (forall s l r, parse_elements fuel s = Parsed l r ->
                    (String.length r < String.length s)%nat)
  /\ (forall acc s o r, parse_members fuel acc s = Parsed o r ->
                        (String.length r < String.length s)%nat).
Proof.
  induction fuel as [|f (IHv & IHe & IHm)].
  { repeat split; intros; discriminate. }
  repeat split.
  - intros s v r. rewrite parse_value_S.
    destruct (skip_ws s) as [|c t] eqn:Hs; [discriminate|].
    destruct (c =? "{")%char.
    { destruct (after "}" (skip_ws t)) eqn:Ha.
      - intros H; inversion H; subst. lengths. lia.
      - destruct (parse_members f [] t) eqn:Hm; try discriminate.
        intros H; inversion H; subst. apply IHm in Hm. lengths. lia. }
    destruct (c =? "[")%char.
    { destruct (after "]" (skip_ws t)) eqn:Ha.
      - intros H; inversion H; subst. lengths. lia.
      - destruct (parse_elements f t) eqn:He; try discriminate.
        intros H; inversion H; subst. apply IHe in He. lengths. lia. }
    destruct (c =? dquote)%char.
    { destruct (parse_chars t) as [[k r']|] eqn:Hc; [|discriminate].
      intros H; inversion H; subst. lengths. lia. }
    destruct (c =? "n")%char; [intros H; lengths; lia|].
    destruct (c =? "t")%char; [intros H; lengths; lia|].
    destruct (c =? "f")%char; [intros H; lengths; lia|].
    intros H. lengths. simpl in H. lia.
  - intros s l r. rewrite parse_elements_S.
    destruct (parse_value f s) as [v t| |] eqn:Hv; try discriminate.
    apply IHv in Hv.
    destruct (after "," (skip_ws t)) eqn:Ha.
    + destruct (parse_elements f s0) eqn:He; try discriminate.
      intros H; inversion H; subst. apply IHe in He. lengths. lia.
    + destruct (after "]" (skip_ws t)) eqn:Hb; [|discriminate].
      intros H; inversion H; subst. lengths. lia.
  - intros acc s o r. rewrite parse_members_S.
    destruct (after dquote (skip_ws s)) eqn:Ha; [|discriminate].
    destruct (parse_chars s0) as [[k r1]|] eqn:Hc; [|discriminate].
    destruct (after ":" (skip_ws r1)) eqn:Hb; [|discriminate].
    destruct (parse_value f s1) as [v r3| |] eqn:Hv; try discriminate.
    apply IHv in Hv.
    destruct (after "," (skip_ws r3)) eqn:Hd.
    + intros H. apply IHm in H. lengths. lia.
    + destruct (after "}" (skip_ws r3)) eqn:He; [|discriminate].
      intros H; inversion H; subst. lengths. lia.
Qed.

(** The fuel that [parse] gives is never used up. *)
Lemma parse_fuel (fuel : nat) :
  (forall s, (2 * String.length s + 1 <= fuel)%nat ->
             parse_value fuel s <> OutOfFuel)
  /\ (forall s, (2 * String.length s + 2 <= fuel)%nat ->
                parse_elements fuel s <> OutOfFuel)
  /\ (forall acc s, (2 * String.length s + 2 <= fuel)%nat ->
                    parse_members fuel acc s <> OutOfFuel).
Proof.
  induction fuel as [|f (IHv & IHe & IHm)].
  { repeat split; intros; lia. }
  repeat split.
  - intros s Hf. rewrite parse_value_S.
    destruct (skip_ws s) as [|c t] eqn:Hs; [discriminate|].
    apply skip_ws_head in Hs.
    destruct (c =? "{")%char.
    { destruct (after "}" (skip_ws t)); [discriminate|].
      assert (Hrec := IHm [] t ltac:(lia)).
      destruct (parse_members f [] t); (discriminate || congruence). }
    destruct (c =? "[")%char.
    { destruct (after "]" (skip_ws t)); [discriminate|].
      assert (Hrec := IHe t ltac:(lia)).
      destruct (parse_elements f t); (discriminate || congruence). }
    destruct (c =? dquote)%char.
    { destruct (parse_chars t) as [[k r']|]; discriminate. }
    unfold parse_literal, parse_number.
    destruct (c =? "n")%char; [destruct (expect _ t); discriminate|].
    destruct (c =? "t")%char; [destruct (expect _ t); discriminate|].
    destruct (c =? "f")%char; [destruct (expect _ t); discriminate|].
    destruct (c =? "-")%char.
    + destruct (parse_uint t) as [[u r']|]; discriminate.
    + destruct (parse_uint (String c t)) as [[u r']|]; discriminate.
  - intros s Hf. rewrite parse_elements_S.
    assert (Hrec := IHv s ltac:(lia)).
    destruct (parse_value f s) as [v t| |] eqn:Hv; [|discriminate|congruence].
    apply (proj1 (parse_progress f)) in Hv.
    destruct (after "," (skip_ws t)) eqn:Ha.
    + lengths.
      assert (Hrec' := IHe s0 ltac:(lia)).
      destruct (parse_elements f s0); (discriminate || congruence).
    + destruct (after "]" (skip_ws t)); discriminate.
  - intros acc s Hf. rewrite parse_members_S.
    destruct (after dquote (skip_ws s)) eqn:Ha; [|discriminate].
    destruct (parse_chars s0) as [[k r1]|] eqn:Hc; [|discriminate].
    destruct (after ":" (skip_ws r1)) eqn:Hb; [|discriminate].
    lengths.
    assert (Hrec := IHv s1 ltac:(lia)).
    destruct (parse_value f s1) as [v r3| |] eqn:Hv; [|discriminate|congruence].
    apply (proj1 (parse_progress f)) in Hv.
    destruct (after "," (skip_ws r3)) eqn:Hd.
    + lengths. apply IHm. lia.
    + destruct (after "}" (skip_ws r3)); discriminate.
Qed.

(** More fuel does not change a result. *)
Lemma parse_fuel_mono (fuel : nat) :
  (forall s fuel', (fuel <= fuel')%nat -> parse_value fuel s <> OutOfFuel ->
                   parse_value fuel' s = parse_value fuel s)
  /\ (forall s fuel', (fuel <= fuel')%nat -> parse_elements fuel s <> OutOfFuel ->
                      parse_elements fuel' s = parse_elements fuel s)
  /\ (forall acc s fuel', (fuel <= fuel')%nat ->
                          parse_members fuel acc s <> OutOfFuel ->
                          parse_members fuel' acc s = parse_members fuel acc s).
Proof.
  induction fuel as [|f (IHv & IHe & IHm)].
  { repeat split; intros; exfalso; auto. }
  repeat split.
  - intros s [|f'] Hf; [lia|]. rewrite !parse_value_S.
    destruct (skip_ws s) as [|c t]; [reflexivity|].
    destruct (c =? "{")%char.
    { destruct (after "}" (skip_ws t)); [reflexivity|]. intros Hne.
      rewrite (IHm [] t f') by (lia || (destruct (parse_members f [] t); congruence)).
      reflexivity. }
    destruct (c =? "[")%char; [|reflexivity].
    destruct (after "]" (skip_ws t)); [reflexivity|]. intros Hne.
    rewrite (IHe t f') by (lia || (destruct (parse_elements f t); congruence)).
    reflexivity.
  - intros s [|f'] Hf; [lia|]. rewrite !parse_elements_S. intros Hne.
    rewrite (IHv s f') by (lia || (destruct (parse_value f s); congruence)).
    destruct (parse_value f s) as [v t| |]; try reflexivity.
    destruct (after "," (skip_ws t)); [|reflexivity].
    rewrite (IHe s0 f') by (lia || (destruct (parse_elements f s0); congruence)).
    reflexivity.
  - intros acc s [|f'] Hf; [lia|]. rewrite !parse_members_S. intros Hne.
    destruct (after dquote (skip_ws s)); [|reflexivity].
    destruct (parse_chars s0) as [[k r1]|]; [|reflexivity].
    destruct (after ":" (skip_ws r1)); [|reflexivity].
    rewrite (IHv s1 f') by (lia || (destruct (parse_value f s1); congruence)).
    destruct (parse_value f s1) as [v r3| |]; try reflexivity.
    destruct (after "," (skip_ws r3)); [|reflexivity].
    apply IHm; [lia|exact Hne].
Qed.

(** **** What [stringify] prints reads back *)

Lemma pad_blank (gap indent : string) :
  blank indent = true -> blank (pad gap indent) = true.
Proof.
  intros H. unfold pad. destruct (gap =? "")%string; [reflexivity|exact H].
Qed.

Lemma after_closing_none (c' : ascii) (w s tail : string) :
  blank w = true ->
  (exists c t, s = String c t /\ opens c = true) ->
  (c' = "]" \/ c' = "}")%char ->
  after c' (skip_ws (w ++ s ++ tail)) = None.
Proof.
  intros Hw (c & t & -> & Hc) Hc'. rewrite skip_ws_blank by exact Hw.
  destruct (opens_facts c Hc) as (Hws & H1 & H2 & _).
  simpl. rewrite Hws. simpl. destruct Hc' as [-> | ->]; [rewrite H1|rewrite H2];
    reflexivity.
Qed.

Lemma join_head (sep : string) (parts : list string) (first : string) :
  (exists c t, first = String c t /\ opens c = true) ->
  exists c t, join sep (first :: parts) = String c t /\ opens c = true.
Proof.
  intros (c & t & -> & Hc). destruct parts as [|p parts]; simpl.
  - exists c, t. split; [reflexivity|exact Hc].
  - eexists c, _. split; [reflexivity|exact Hc].
Qed.

Lemma parse_serialize (gap : string) :
  blank gap = true ->
  forall v, wf v = true ->
  forall indent, blank indent = true ->
  exists n, forall fuel rest, (n <= fuel)%nat -> closes rest = true ->
    parse_value fuel (serialize gap indent v ++ rest) = Parsed v rest.
Proof.
  intros Hgap v.
  induction v as [ | b | n | s | l IHl | o IHo] using JSON_ind;
    intros Hwf indent Hind.
  - exists 1%nat. intros [|f] rest Hf Hc; [lia|reflexivity].
  - exists 1%nat. intros [|f] rest Hf Hc; [lia|]. destruct b; reflexivity.
  - exists 1%nat. intros [|f] rest Hf Hc; [lia|].
    apply parse_value_number, Hc.
  - exists 1%nat. intros [|f] rest Hf Hc; [lia|].
    change (serialize gap indent (JStr s)) with (quote s).
    rewrite quote_shape, parse_value_S.
    change (skip_ws (String dquote ?a)) with (String dquote a).
    cbv beta iota.
    change (dquote =? "{")%char with false.
    change (dquote =? "[")%char with false.
    change (dquote =? dquote)%char with true.
    cbv beta iota. rewrite parse_chars_quote_body. reflexivity.
  - destruct l as [|x l].
    { exists 1%nat. intros [|f] rest Hf Hc; [lia|reflexivity]. }
    assert (Hind' : blank (indent ++ gap) = true)
      by (rewrite blank_append, Hind, Hgap; reflexivity).
    change (wf (JArr (x :: l))) with (forallb wf (x :: l)) in Hwf.
    rewrite forallb_forall in Hwf.
    destruct (parse_elements_printed (serialize gap (indent ++ gap))
                (pad gap (indent ++ gap)) (pad gap indent)
                (pad_blank _ _ Hind') (pad_blank _ _ Hind) (x :: l))
      as (n & Hn).
    { discriminate. }
    { rewrite Forall_forall in IHl |- *. intros y Hy.
      apply (IHl y Hy (Hwf y Hy) _ Hind'). }
    exists (S n). intros [|f] rest Hf Hc; [lia|].
    change (serialize gap indent (JArr (x :: l)))
      with ("[" ++ pad gap (indent ++ gap)
              ++ join (String "," (pad gap (indent ++ gap)))
                   (map (serialize gap (indent ++ gap)) (x :: l))
              ++ pad gap indent ++ "]")%string.
    rewrite !append_assoc.
    change ("[" ++ ?a)%string with (String "[" a).
    change ("]" ++ rest)%string with (String "]" rest).
    rewrite parse_value_S.
    change (skip_ws (String "[" ?a)) with (String "[" a).
    cbv beta iota.
    change ("[" =? "{")%char with false.
    change ("[" =? "[")%char with true.
    cbv beta iota.
    rewrite after_closing_none.
    + rewrite Hn; [reflexivity|lia|].
      unfold pad. destruct (gap =? "")%string; reflexivity.
    + apply pad_blank, Hind'.
    + apply join_head, serialize_head.
    + left; reflexivity.
  - destruct o as [|[k x] o].
    { exists 1%nat. intros [|f] rest Hf Hc; [lia|reflexivity]. }
    assert (Hind' : blank (indent ++ gap) = true)
      by (rewrite blank_append, Hind, Hgap; reflexivity).
    change (wf (JObj ((k, x) :: o)))
      with (nodup_strings (map fst ((k, x) :: o))
            && forallb (fun kv => wf (snd kv)) ((k, x) :: o)) in Hwf.
    apply andb_true_iff in Hwf as [Hnd Hwf].
    rewrite forallb_forall in Hwf.
    destruct (parse_members_printed (serialize gap (indent ++ gap))
                (if (gap =? "")%string then "" else " ")
                (pad gap (indent ++ gap)) (pad gap indent)
                (pad_blank _ _ Hind') (pad_blank _ _ Hind)
                ltac:(destruct (gap =? "")%string; reflexivity)
                ((k, x) :: o) [])
      as (n & Hn).
    { discriminate. }
    { exact Hnd. }
    { rewrite Forall_forall in IHo |- *. intros y Hy.
      apply (IHo y Hy (Hwf y Hy) _ Hind'). }
    exists (S n). intros [|f] rest Hf Hc; [lia|].
    change (serialize gap indent (JObj ((k, x) :: o)))
      with ("{" ++ pad gap (indent ++ gap)
              ++ join (String "," (pad gap (indent ++ gap)))
                   (map (fun kv =>
                           quote (fst kv)
                             ++ String ":" (if (gap =? "")%string then "" else " ")
                             ++ serialize gap (indent ++ gap) (snd kv))
                        ((k, x) :: o))
              ++ pad gap indent ++ "}")%string.
    rewrite !append_assoc.
    change ("{" ++ ?a)%string with (String "{" a).
    change ("}" ++ rest)%string with (String "}" rest).
    rewrite parse_value_S.
    change (skip_ws (String "{" ?a)) with (String "{" a).
    cbv beta iota.
    change ("{" =? "{")%char with true.
    cbv beta iota.
    rewrite after_closing_none.
    + rewrite Hn; [reflexivity|lia|].
      unfold pad. destruct (gap =? "")%string; reflexivity.
    + apply pad_blank, Hind'.
    + apply join_head. eexists dquote, _. split; [reflexivity|reflexivity].
    + right; reflexivity.
Qed.

(** The fuel of [parse] is enough for every text, and more of it changes
    nothing: [None] is a syntax error, never a lack of fuel. *)
Lemma parse_never_out_of_fuel (s : string) (fuel : nat) :
  (2 * String.length s + 1 <= fuel)%nat ->
  parse_value fuel s <> OutOfFuel
  /\ parse_value fuel s = parse_value (2 * String.length s + 1) s.
Proof.
  intros Hf.
  assert (Hne : parse_value (2 * String.length s + 1) s <> OutOfFuel)
    by (apply (proj1 (parse_fuel _)); lia).
  rewrite (proj1 (parse_fuel_mono _) s fuel Hf Hne).
  split; [exact Hne|reflexivity].
Qed.

(** [JSON.parse] reads back what [JSON.stringify] prints, with or without
    indentation. *)
Lemma parse_serialize_top (gap : string) (v : JSON) :
  blank gap = true -> wf v = true -> parse (serialize gap "" v) = Some v.
Proof.
  intros Hgap Hwf.
  destruct (parse_serialize gap Hgap v Hwf "" eq_refl) as (n & Hn).
  unfold parse. set (s := serialize gap "" v).
  set (fuel := (2 * String.length s + 1)%nat).
  assert (Hbig : parse_value (Nat.max n fuel) s = Parsed v "").
  { rewrite <- (append_empty_r s). apply Hn; [lia|reflexivity]. }
  assert (Hne : parse_value fuel s <> OutOfFuel)
    by (apply (proj1 (parse_fuel fuel)); subst fuel; lia).
  rewrite <- (proj1 (parse_fuel_mono fuel) s (Nat.max n fuel)), Hbig
    by (lia || exact Hne).
  reflexivity.
Qed.

(** *** The persistence service *)

Lemma Date_now_ok (w : World) : Date_now w = Ok (clock w (reads w)) (tick w).
Proof. reflexivity. Qed.

Lemma generateId_ok (w : World) : generateId w = Ok (id_at w) (drawn (tick w)).
Proof. reflexivity. Qed.

Lemma generateSeedData_ok (w : World) :
  exists seed w1,
    generateSeedData w = Ok seed w1
    /\ platform w1 = platform w /\ storage w1 = storage w
    /\ clock w1 = clock w /\ reads w1 = (10 + reads w)%nat
    /\ random w1 = random w
    /\ AppData.version seed = "v1"
    /\ AppData.createdAt seed = toISOString (platform w) (clock w (reads w))
    /\ List.length (AppData.periods seed) = 1%nat
    /\ List.length (AppData.portions seed) = 5%nat
    /\ List.length (AppData.expenses seed) = 3%nat.
Proof.
  unfold generateSeedData.
  unfold bind at 1. rewrite Date_now_ok. cbv beta iota.
  unfold bind at 1. unfold the_platform at 1. cbv beta iota.
  do 9 (unfold bind at 1; rewrite generateId_ok; cbv beta iota).
  unfold ret. eexists. eexists. split; [reflexivity|].
  repeat split.
Qed.

Lemma props_stamp (d : AppData.t) (t : string) :
  set_prop (AppData.props d) "lastUsedAt" (JStr t)
  = AppData.props (AppData.set_lastUsedAt d t).
Proof. destruct d as [v c l ps qs es [a|]]; reflexivity. Qed.

Lemma save_object (o : list (string * JSON)) (w : World) :
  let saved := JObj (set_prop o "lastUsedAt" (JStr (iso_now w))) in
  accepts (platform w) (stringify saved) = true ->
  saveDataToLocalStorage (JObj o) w
  = Ok saved (with_storage (tick w) (Some (stringify saved))).
Proof.
  intros saved Hacc.
  unfold saveDataToLocalStorage, try_catch, bind, stamp, now_iso, bind,
    Date_now, the_platform, assign, setItem, ret.
  change (platform (tick w)) with (platform w).
  fold (iso_now w). fold saved. rewrite Hacc. reflexivity.
Qed.

Lemma save_store (d : AppData.t) (w : World) :
  (forall text, accepts (platform w) text = true) ->
  let saved := AppData.toJSON (AppData.set_lastUsedAt d (iso_now w)) in
  saveDataToLocalStorage (AppData.toJSON d) w
  = Ok saved (with_storage (tick w) (Some (stringify saved))).
Proof.
  intros Hacc saved. unfold AppData.toJSON in *.
  rewrite save_object by apply Hacc. subst saved. rewrite props_stamp.
  reflexivity.
Qed.

(** What the seeding branches of [loadDataFromLocalStorage] do. *)
Lemma seed_and_save (w : World) :
  (forall text, accepts (platform w) text = true) ->
  exists (seed : AppData.t) (w1 : World),
    generateSeedData w = Ok seed w1
    /\ let saved := AppData.toJSON (AppData.set_lastUsedAt seed (iso_now w1)) in
       (seedData <- generateSeedData ;;
        seedData' <- saveDataToLocalStorage (AppData.toJSON seedData) ;;
        ret (mkLoaded seedData' false)) w
       = Ok (mkLoaded saved false)
            (with_storage (tick w1) (Some (stringify saved)))
    /\ List.length (AppData.periods seed) = 1%nat
    /\ List.length (AppData.portions seed) = 5%nat
    /\ List.length (AppData.expenses seed) = 3%nat.
Proof.
  intros Hacc.
  destruct (generateSeedData_ok w)
    as (seed & w1 & Hgen & Hpf & _ & _ & _ & _ & _ & _ & H1 & H5 & H3).
  exists seed, w1. split; [exact Hgen|]. cbv zeta.
  split; [|repeat split; assumption].
  unfold bind at 1. rewrite Hgen. unfold bind, ret.
  rewrite save_store by (intros text; rewrite Hpf; apply Hacc).
  reflexivity.
Qed.

Lemma set_prop_twice (o : list (string * JSON)) (k : string) (a b : JSON) :
  set_prop (set_prop o k a) k b = set_prop o k b.
Proof.
  induction o as [|[k' v'] o IH]; simpl.
  - rewrite String.eqb_refl. reflexivity.
  - destruct (k' =? k)%string eqn:E; simpl.
    + rewrite String.eqb_refl. reflexivity.
    + rewrite E, IH. reflexivity.
Qed.

Lemma parse_empty : parse "" = None.
Proof. reflexivity. Qed.

Lemma isDataExpired_object (o : list (string * JSON)) (w : World) :
  isDataExpired (JObj o) w
  = if Date_throws (get_prop o "createdAt") then Throw TypeError w
    else Ok (match Date_getTime (platform w) (get_prop o "createdAt") with
             | Some createdAt => ONE_YEAR_MS <? clock w (reads w) - createdAt
             | None => false
             end) (tick w).
Proof.
  unfold isDataExpired, member. unfold bind at 1. unfold ret at 1.
  unfold bind at 1.
  destruct (Date_throws (get_prop o "createdAt")); reflexivity.
Qed.

Lemma Date_getTime_converts (pf : Platform) (x : option JSON) (t : Z) :
  Date_getTime pf x = Some t -> Date_throws x = false.
Proof.
  destruct x as [[ | b | n | s | l | o]|]; try reflexivity;
    unfold Date_getTime, Date_throws;
    destruct (unconvertible _); (discriminate || reflexivity).
Qed.

(** The persistence service, branch by branch. *)

Lemma save_eq (d : JSON) (w : World) :
  saveDataToLocalStorage d w
  = match stamped d w with
    | Some d' =>
        if accepts (platform w) (stringify d')
        then Ok d' (with_storage (tick w) (Some (stringify d')))
        else Throw failed_to_save (tick w)
    | None => Throw failed_to_save (tick w)
    end.
Proof.
  destruct d as [ | b | n | s | l | o]; try reflexivity.
  - unfold saveDataToLocalStorage, try_catch, bind, stamp, now_iso, bind,
      Date_now, the_platform, assign, setItem, ret, stamped.
    change (platform (tick w)) with (platform w).
    destruct (accepts (platform w) (stringify (JArr l))); reflexivity.
  - unfold saveDataToLocalStorage, try_catch, bind, stamp, now_iso, bind,
      Date_now, the_platform, assign, setItem, ret, stamped.
    change (platform (tick w)) with (platform w). fold (iso_now w).
    destruct (accepts (platform w)
                (stringify (JObj (set_prop o "lastUsedAt" (JStr (iso_now w))))));
      reflexivity.
Qed.

Lemma save_and_return_eq (b : bool) (d : JSON) (w : World) :
  save_and_return b d w
  = match stamped d w with
    | Some d' =>
        if accepts (platform w) (stringify d')
        then Ok (mkLoaded d' b) (with_storage (tick w) (Some (stringify d')))
        else Throw failed_to_save (tick w)
    | None => Throw failed_to_save (tick w)
    end.
Proof.
  unfold save_and_return, bind. rewrite save_eq.
  destruct (stamped d w) as [d'|]; [|reflexivity].
  destruct (accepts (platform w) (stringify d')); reflexivity.
Qed.

Lemma seed_run_eq (w : World) (seed : AppData.t) (w1 : World) :
  generateSeedData w = Ok seed w1 ->
  (seedData <- generateSeedData ;;
   seedData' <- saveDataToLocalStorage (AppData.toJSON seedData) ;;
   ret (mkLoaded seedData' false)) w
  = save_and_return false (AppData.toJSON seed) w1.
Proof.
  intros H. unfold bind at 1. rewrite H. reflexivity.
Qed.

Lemma isDataExpired_cases (v : JSON) (w : World) :
  isDataExpired v w
  = match v with
    | JNull => Throw TypeError w
    | JObj o =>
        if Date_throws (get_prop o "createdAt") then Throw TypeError w
        else Ok (match Date_getTime (platform w) (get_prop o "createdAt") with
                 | Some createdAt =>
                     ONE_YEAR_MS <? clock w (reads w) - createdAt
                 | None => false
                 end) (tick w)
    | _ => Ok false (tick w)
    end.
Proof. destruct v; try reflexivity. apply isDataExpired_object. Qed.

Lemma keep_eq (v : JSON) (w : World) :
  (now <- now_iso ;;
   data1 <- assign v "lastUsedAt" (JStr now) ;;
   data2 <- saveDataToLocalStorage data1 ;;
   ret (mkLoaded data2 false)) w
  = match stamped v w with
    | Some kept => save_and_return false kept (tick w)
    | None => Throw TypeError (tick w)
    end.
Proof. destruct v; reflexivity. Qed.

Lemma clear_eq (w : World) :
  (freshData <- createEmptyAppData ;;
   freshData' <- saveDataToLocalStorage (AppData.toJSON freshData) ;;
   ret (mkLoaded freshData' true)) w
  = save_and_return true (AppData.toJSON (emptyData (iso_now w))) (tick w).
Proof. reflexivity. Qed.

Lemma stamped_object (o : list (string * JSON)) (w : World) :
  stamped (JObj o) w <> None.
Proof. discriminate. Qed.

Lemma stamped_array (l : list JSON) (w : World) :
  stamped (JArr l) w <> None.
Proof. discriminate. Qed.

Lemma seed_world (w : World) :
  exists seed w1,
    generateSeedData w = Ok seed w1
    /\ platform w1 = platform w /\ storage w1 = storage w.
Proof.
  destruct (generateSeedData_ok w) as (seed & w1 & H & Hp & Hs & _).
  exists seed, w1. auto.
Qed.

Lemma seed_run_save (w : World) (seed : AppData.t) (w1 : World) :
  generateSeedData w = Ok seed w1 ->
  seed_run w = save_and_return false (AppData.toJSON seed) w1.
Proof. exact (seed_run_eq w seed w1). Qed.

Lemma load_eq (w : World) :
  loadDataFromLocalStorage w
  = recover
      (if no_text (storage w) then seed_run w
       else match parse (match storage w with Some s => s | None => "" end) with
            | None => Throw JsonSyntaxError w
            | Some v =>
                match isDataExpired v w with
                | Ok expired w1 =>
                    if expired
                    then (freshData <- createEmptyAppData ;;
                          freshData' <- saveDataToLocalStorage
                                          (AppData.toJSON freshData) ;;
                          ret (mkLoaded freshData' true)) w1
                    else (now <- now_iso ;;
                          data1 <- assign v "lastUsedAt" (JStr now) ;;
                          data2 <- saveDataToLocalStorage data1 ;;
                          ret (mkLoaded data2 false)) w1
                | Throw e w1 => Throw e w1
                end
            end).
Proof.
  unfold loadDataFromLocalStorage, try_catch, recover, seed_run.
  unfold bind at 1. unfold getItem. cbv beta iota.
  destruct (no_text (storage w)); [reflexivity|].
  unfold bind at 1. unfold JSON_parse.
  destruct (parse match storage w with Some s => s | None => "" end) as [v|];
    [|reflexivity].
  unfold ret at 1. unfold bind at 1.
  destruct (isDataExpired v w) as [[|] w1|e w1]; reflexivity.
Qed.

Lemma seed_run_shape (w w0 : World) :
  platform w0 = platform w -> storage w0 = storage w ->
  load_outcome w (seed_run w0).
Proof.
  intros Hp Hs.
  destruct (seed_world w0) as (seed & w1 & Hgen & Hp1 & Hs1).
  rewrite (seed_run_save w0 seed w1 Hgen).
  exists false, (AppData.toJSON seed), w1, seed, w1.
  split; [congruence|]. split; [congruence|].
  split; [congruence|]. split; [congruence|].
  split; [apply stamped_object|]. left. reflexivity.
Qed.

Lemma recover_save_shape (w : World) (b : bool) (d : JSON) (w0 : World) :
  platform w0 = platform w -> storage w0 = storage w ->
  stamped d w0 <> None ->
  load_outcome w (recover (save_and_return b d w0)).
Proof.
  intros Hp Hs Hst.
  destruct (seed_world (tick w0)) as (seed & w2 & Hgen & Hp2 & Hs2).
  exists b, d, w0, seed, w2.
  split; [exact Hp|]. split; [exact Hs|].
  split; [rewrite Hp2; exact Hp|]. split; [rewrite Hs2; exact Hs|].
  split; [exact Hst|]. right.
  rewrite save_and_return_eq.
  destruct (stamped d w0) as [d'|]; [|congruence].
  destruct (accepts (platform w0) (stringify d')); [reflexivity|].
  unfold recover. apply (seed_run_save (tick w0) seed w2 Hgen).
Qed.

(** Every run of [loadDataFromLocalStorage] ends in the save of an object
    or an array, or, when that save throws, in the save of seed data. *)
Lemma load_shape (w : World) : load_outcome w (loadDataFromLocalStorage w).
Proof.
  rewrite load_eq.
  destruct (no_text (storage w)) eqn:Hnt.
  - destruct (seed_world w) as (seed & w1 & Hgen & Hp1 & Hs1).
    rewrite (seed_run_save w seed w1 Hgen).
    apply recover_save_shape; [exact Hp1|exact Hs1|apply stamped_object].
  - destruct (parse match storage w with Some s => s | None => "" end)
      as [v|].
    2:{ apply seed_run_shape; reflexivity. }
    rewrite isDataExpired_cases.
    destruct v as [ | b | n | s | l | o].
    + apply seed_run_shape; reflexivity.
    + rewrite keep_eq. apply seed_run_shape; reflexivity.
    + rewrite keep_eq. apply seed_run_shape; reflexivity.
    + rewrite keep_eq. apply seed_run_shape; reflexivity.
    + rewrite keep_eq.
      apply (recover_save_shape w false (JArr l) (tick (tick w)));
        [reflexivity|reflexivity|apply stamped_array].
    + destruct (Date_throws (get_prop o "createdAt"));
        [apply seed_run_shape; reflexivity|].
      destruct (match Date_getTime (platform w) (get_prop o "createdAt") with
                | Some createdAt => ONE_YEAR_MS <? clock w (reads w) - createdAt
                | None => false
                end).
      * rewrite clear_eq.
        apply (recover_save_shape w true
                 (AppData.toJSON (emptyData (iso_now (tick w))))
                 (tick (tick w)));
          [reflexivity|reflexivity|apply stamped_object].
      * rewrite keep_eq.
        apply (recover_save_shape w false
                 (JObj (set_prop o "lastUsedAt" (JStr (iso_now (tick w)))))
                 (tick (tick w)));
          [reflexivity|reflexivity|apply stamped_object].
Qed.








(** C3.  When the slot holds a text that parses to a store whose
    [createdAt] lies more than 365 days before the clock,
    [loadDataFromLocalStorage] makes an empty store (no periods, portions
    or expenses, no active period), stores it and returns it with
    [wasCleared = true]. *)
Theorem load_expired_clears :
  forall (w : World) (text : string) (o : list (string * JSON))
         (createdAt : Z),
    storage w = Some text ->
    parse text = Some (JObj o) ->
    Date_getTime (platform w) (get_prop o "createdAt") = Some createdAt ->
    365 * 24 * 60 * 60 * 1000 < clock w (reads w) - createdAt ->
    (forall t, accepts (platform w) t = true) ->
    exists (fresh : AppData.t) (w' : World),
      loadDataFromLocalStorage w = Ok (mkLoaded (AppData.toJSON fresh) true) w'
      /\ storage w' = Some (stringify (AppData.toJSON fresh))
      /\ AppData.periods fresh = []
      /\ AppData.portions fresh = []
      /\ AppData.expenses fresh = []
      /\ AppData.activePeriodId fresh = None
      /\ AppData.toJSON fresh
         = JObj [("version", JStr "v1");
                 ("createdAt", JStr (iso_now (tick w)));
                 ("lastUsedAt", JStr (iso_now (tick (tick w))));
                 ("periods", JArr []); ("portions", JArr []);
                 ("expenses", JArr [])].
Proof.
  intros w text o createdAt Hst Hparse Htime Hold Hacc.
  exists (AppData.mk "v1" (iso_now (tick w)) (iso_now (tick (tick w)))
            [] [] [] None).
  exists (with_storage (tick (tick (tick w)))
            (Some (stringify
                     (AppData.toJSON
                        (AppData.mk "v1" (iso_now (tick w))
                           (iso_now (tick (tick w))) [] [] [] None))))).
  split; [|repeat split].
  unfold loadDataFromLocalStorage, try_catch.
  unfold bind at 1. unfold getItem. rewrite Hst.
  assert (Htext : no_text (Some text) = false).
  { simpl. destruct (String.eqb_spec text ""); [|reflexivity].
    subst text. rewrite parse_empty in Hparse. discriminate Hparse. }
  rewrite Htext.
  unfold bind at 1. unfold JSON_parse. rewrite Hparse. unfold ret at 1.
  unfold bind at 1.
  rewrite isDataExpired_object, (Date_getTime_converts _ _ _ Htime), Htime.
  assert (Hexp : (ONE_YEAR_MS <? clock w (reads w) - createdAt) = true)
    by (apply Z.ltb_lt; exact Hold).
  rewrite Hexp.
  unfold bind at 1. unfold createEmptyAppData, bind, now_iso, bind,
    Date_now, the_platform, ret.
  cbn [platform clock reads].
  rewrite save_store by apply Hacc.
  reflexivity.
Qed.

Lemma load_expired_clears_witness :
  exists (fresh : AppData.t) (w' : World),
    loadDataFromLocalStorage (Demo.world (Some Demo.old_text))
    = Ok (mkLoaded (AppData.toJSON fresh) true) w'
    /\ storage w' = Some (stringify (AppData.toJSON fresh))
    /\ AppData.periods fresh = []
    /\ AppData.portions fresh = []
    /\ AppData.expenses fresh = []
    /\ AppData.activePeriodId fresh = None
    /\ AppData.toJSON fresh
       = JObj [("version", JStr "v1");
               ("createdAt", JStr "2025-11-15T1763200000001Z");
               ("lastUsedAt", JStr "2025-11-15T1763200000002Z");
               ("periods", JArr []); ("portions", JArr []);
               ("expenses", JArr [])].
Proof.
  apply (load_expired_clears (Demo.world (Some Demo.old_text)) Demo.old_text
           (AppData.props
              (AppData.mk "v1" "2024-01-01T00:00:00.000Z"
                 "2024-06-01T00:00:00.000Z" [Demo.nov] [Demo.food] []
                 (Some "p-nov")))
           1704067200000).
  - reflexivity.
  - vm_compute. reflexivity.
  - vm_compute. reflexivity.
  - vm_compute. reflexivity.
  - intros t. reflexivity.
Defined.

(** *** Import and export *)

Lemma import_unparsable (text : string) (w : World) :
  parse text = None -> importDataFromJson text w = Throw invalid_json w.
Proof.
  intros H. unfold importDataFromJson, try_catch, bind, JSON_parse.
  rewrite H. reflexivity.
Qed.

(** What [importDataFromJson] does with a text that parses. *)
Lemma import_parsed (text : string) (v : JSON) (w : World) :
  parse text = Some v ->
  importDataFromJson text w
  = match v with
    | JObj o =>
        if forallb (fun k => negb (falsy (get_prop o k))) required
        then Ok (JObj (set_prop o "lastUsedAt" (JStr (iso_now w)))) (tick w)
        else Throw invalid_json w
    | _ => Throw invalid_json w
    end.
Proof.
  intros H. unfold importDataFromJson, try_catch.
  unfold bind at 1. unfold JSON_parse. rewrite H. unfold ret at 1.
  destruct v as [ | b | n | s | l | o]; try reflexivity.
  unfold or_else, lacks, member, bind, ret, required, forallb.
  destruct (falsy (get_prop o "version")); [reflexivity|].
  destruct (falsy (get_prop o "periods")); [reflexivity|].
  destruct (falsy (get_prop o "portions")); [reflexivity|].
  destruct (falsy (get_prop o "expenses")); reflexivity.
Qed.

Lemma forallb_false_witness {A} (f : A -> bool) (l : list A) :
  forallb f l = false <-> exists x, In x l /\ f x = false.
Proof.
  induction l as [|a l IH]; simpl.
  - split; [discriminate|intros (x & [] & _)].
  - rewrite andb_false_iff, IH. split.
    + intros [H | (x & Hx & Hf)]; [exists a; auto|exists x; auto].
    + intros (x & [-> | Hx] & Hf); [left; exact Hf|right; exists x; auto].
Qed.

(** C9.  When the text parses to an object in which a required field is
    present but falsy (null, false, 0 or the empty string),
    [importDataFromJson] rejects it with its validation error: the test is
    on the truth of each field, not on its presence. *)
Theorem import_rejects_falsy_field :
  forall (text : string) (o : list (string * JSON)) (w : World)
         (k : string) (x : JSON),
    parse text = Some (JObj o) ->
    In k required ->
    get_prop o k = Some x ->
    truthy x = false ->
    importDataFromJson text w = Throw invalid_json w.
Proof.
  intros text o w k x Hparse Hk Hget Hx.
  rewrite (import_parsed text (JObj o) w Hparse).
  assert (E : forallb (fun k => negb (falsy (get_prop o k))) required = false).
  { apply forallb_false_witness. exists k. split; [exact Hk|].
    rewrite Hget. simpl. rewrite Hx. reflexivity. }
  rewrite E. reflexivity.
Qed.

Lemma import_rejects_falsy_field_witness :
  importDataFromJson (stringify Demo.unversioned) (Demo.world None)
  = Throw invalid_json (Demo.world None)
  /\ importDataFromJson
       (stringify (JObj [("version", JStr "v1"); ("periods", JNull);
                         ("portions", JArr []); ("expenses", JArr [])]))
       (Demo.world None)
     = Throw invalid_json (Demo.world None)
  /\ importDataFromJson
       (stringify (JObj [("version", JStr "v1"); ("periods", JArr []);
                         ("portions", JNum 0); ("expenses", JArr [])]))
       (Demo.world None)
     = Throw invalid_json (Demo.world None).
Proof.
  split; [|split].
  - apply (import_rejects_falsy_field (stringify Demo.unversioned)
             [("version", JStr ""); ("periods", JArr []);
              ("portions", JArr []); ("expenses", JArr [])]
             (Demo.world None) "version" (JStr "")).
    + vm_compute. reflexivity.
    + simpl. auto.
    + reflexivity.
    + reflexivity.
  - apply (import_rejects_falsy_field _
             [("version", JStr "v1"); ("periods", JNull);
              ("portions", JArr []); ("expenses", JArr [])]
             (Demo.world None) "periods" JNull).
    + vm_compute. reflexivity.
    + simpl. auto.
    + reflexivity.
    + reflexivity.
  - apply (import_rejects_falsy_field _
             [("version", JStr "v1"); ("periods", JArr []);
              ("portions", JNum 0); ("expenses", JArr [])]
             (Demo.world None) "portions" (JNum 0)).
    + vm_compute. reflexivity.
    + simpl. auto.
    + reflexivity.
    + reflexivity.
Defined.

(** C5, as the code has it.  On the texts of the model ([in_model]: no
    number with a fraction or an exponent, no escape above [00FF]),
    [importDataFromJson] fails exactly when the text does not parse or one
    of [version], [periods], [portions], [expenses] is absent or falsy in
    what it parses to.  On every text, a failure is the error with the
    message for the user, and it leaves the world and the state of the hook
    as they were. *)
Theorem import_fails_iff_unparsable_or_falsy :
  forall (text : string) (w : World),
    (in_model text = true ->
     ((exists e w', importDataFromJson text w = Throw e w')
      <-> (parse text = None
           \/ exists v k, parse text = Some v /\ In k required
                          /\ falsy (field v k) = true)))
    /\ (forall e w',
          importDataFromJson text w = Throw e w' ->
          e = Error "Invalid JSON format. Please check your data."
          /\ w' = w
          /\ forall st : State, importData text st w = (st, Throw e w)).
Proof.
  intros text w.
  assert (Hthrow : forall e w',
            importDataFromJson text w = Throw e w' -> e = invalid_json /\ w' = w).
  { intros e w' H. destruct (parse text) as [v|] eqn:Hp.
    - rewrite (import_parsed text v w Hp) in H.
      destruct v as [ | b | n | s | l | o]; try (inversion H; auto).
      destruct (forallb _ required); inversion H; auto.
    - rewrite (import_unparsable text w Hp) in H. inversion H; auto. }
  split; [intros _; split|].
  - intros (e & w' & H). destruct (parse text) as [v|] eqn:Hp; [|left; reflexivity].
    right. rewrite (import_parsed text v w Hp) in H.
    destruct v as [ | b | n | s | l | o];
      try (eexists; exists "version"; split; [reflexivity|];
           split; [simpl; auto|reflexivity]).
    destruct (forallb _ required) eqn:E; [discriminate H|].
    apply forallb_false_witness in E as (k & Hk & Hf).
    exists (JObj o), k. split; [reflexivity|]. split; [exact Hk|].
    apply negb_false_iff in Hf. exact Hf.
  - intros [Hp | (v & k & Hp & Hk & Hf)].
    + exists invalid_json, w. apply import_unparsable, Hp.
    + exists invalid_json, w. rewrite (import_parsed text v w Hp).
      destruct v as [ | b | n | s | l | o]; try reflexivity.
      assert (E : forallb (fun k => negb (falsy (get_prop o k))) required = false).
      { apply forallb_false_witness. exists k. split; [exact Hk|].
        simpl in Hf. rewrite Hf. reflexivity. }
      rewrite E. reflexivity.
  - intros e w' H. destruct (Hthrow e w' H) as [-> ->].
    split; [reflexivity|]. split; [reflexivity|].
    intros st. unfold importData. rewrite H. reflexivity.
Qed.

Lemma import_fails_iff_unparsable_or_falsy_witness :
  ((exists e w',
       importDataFromJson (stringify (JObj [("version", JStr "v1")]))
         (Demo.world None) = Throw e w')
   <-> (parse (stringify (JObj [("version", JStr "v1")])) = None
        \/ exists v k,
             parse (stringify (JObj [("version", JStr "v1")])) = Some v
             /\ In k required /\ falsy (field v k) = true)).
Proof.
  apply (proj1 (import_fails_iff_unparsable_or_falsy
                  (stringify (JObj [("version", JStr "v1")]))
                  (Demo.world None))).
  vm_compute. reflexivity.
Defined.

(** C5 as stated fails: a text whose four fields are all present can still
    be rejected. *)
Lemma import_rejects_present_fields :
  ~ (forall (text : string) (w : World),
       in_model text = true ->
       ((exists e w', importDataFromJson text w = Throw e w')
        <-> (parse text = None
             \/ exists v k, parse text = Some v /\ In k required
                            /\ field v k = None))).
Proof.
  intros H.
  assert (Hmodel : in_model (stringify Demo.unversioned) = true)
    by (vm_compute; reflexivity).
  destruct (proj1 (H (stringify Demo.unversioned) (Demo.world None) Hmodel))
    as [Hp | (v & k & Hp & Hk & Hf)].
  - exists invalid_json, (Demo.world None).
    rewrite (import_parsed _ Demo.unversioned); [reflexivity|].
    vm_compute. reflexivity.
  - vm_compute in Hp. discriminate Hp.
  - vm_compute in Hp. inversion Hp; subst v.
    simpl in Hk. destruct Hk as [<- | [<- | [<- | [<- | []]]]];
      vm_compute in Hf; discriminate Hf.
Qed.

Lemma forallb_map_true {A B} (f : B -> bool) (g : A -> B) (l : list A) :
  (forall x, f (g x) = true) -> forallb f (map g l) = true.
Proof.
  intros H. induction l as [|x l IH]; simpl; [reflexivity|].
  rewrite H, IH. reflexivity.
Qed.

Lemma wf_JArr (l : list JSON) : wf (JArr l) = forallb wf l.
Proof. reflexivity. Qed.

Lemma wf_JObj (o : list (string * JSON)) :
  wf (JObj o) = nodup_strings (map fst o) && forallb (fun kv => wf (snd kv)) o.
Proof. reflexivity. Qed.

Lemma wf_store (d : AppData.t) : wf (AppData.toJSON d) = true.
Proof.
  destruct d as [v c l ps qs es a].
  assert (Hp : forallb wf (map Period.toJSON ps) = true)
    by (apply forallb_map_true; intros x; reflexivity).
  assert (Hq : forallb wf (map Portion.toJSON qs) = true)
    by (apply forallb_map_true; intros [i p n b [s|]]; reflexivity).
  assert (He : forallb wf (map Expense.toJSON es) = true)
    by (apply forallb_map_true; intros x; reflexivity).
  unfold AppData.toJSON, AppData.props.
  rewrite wf_JObj. apply andb_true_iff. split.
  - destruct a; reflexivity.
  - destruct a; cbn [AppData.version AppData.createdAt AppData.lastUsedAt
                     AppData.periods AppData.portions AppData.expenses
                     AppData.activePeriodId app forallb snd];
      rewrite !wf_JArr, Hp, Hq, He; reflexivity.
Qed.



(** Export then import of an object in memory: every property comes back,
    [lastUsedAt] set to the time of the import. *)
Lemma import_export_object (o : list (string * JSON)) (w : World) :
  wf (JObj o) = true ->
  forallb (fun k => negb (falsy (get_prop o k))) required = true ->
  importDataFromJson (exportDataAsJson (JObj o)) w
  = Ok (JObj (set_prop o "lastUsedAt" (JStr (iso_now w)))) (tick w).
Proof.
  intros Hwf Hreq.
  rewrite (import_parsed _ (JObj o) w).
  - rewrite Hreq. reflexivity.
  - apply parse_serialize_top; [reflexivity|exact Hwf].
Qed.




(** *** What replaces [version] and [createdAt] *)

Lemma load_absent (w : World) :
  storage w = None ->
  (forall t, accepts (platform w) t = true) ->
  loadDataFromLocalStorage w
  = (seedData <- generateSeedData ;;
     seedData' <- saveDataToLocalStorage (AppData.toJSON seedData) ;;
     ret (mkLoaded seedData' false)) w.
Proof.
  intros Hst Hacc.
  destruct (seed_and_save w Hacc) as (seed & w1 & _ & Hrun & _).
  cbv zeta in Hrun.
  unfold loadDataFromLocalStorage, try_catch.
  unfold bind at 1. unfold getItem. rewrite Hst.
  change (no_text None) with true. cbv iota.
  rewrite Hrun. reflexivity.
Qed.

(** C10.  The ten mutations of the hook leave [version] and [createdAt] as
    they were, and do nothing while the hook holds no data.  The three
    operations that set the data anew do replace them: [clearData] with
    the tag v1 and the time of the call, [resetData] with those of fresh
    seed data, [importData] with whatever the imported text carries. *)
Theorem mutations_keep_version_createdAt :
  (forall (m : Mutation) (prev : AppData.t),
      exists next : AppData.t,
        updater m (Some prev) = Some next
        /\ AppData.version next = AppData.version prev
        /\ AppData.createdAt next = AppData.createdAt prev)
  /\ (forall m : Mutation, updater m None = None)
  /\ (forall (st : State) (w : World),
        (forall t, accepts (platform w) t = true) ->
        Hook.data (fst (clearData st w))
        = Some (AppData.toJSON
                  (AppData.mk "v1" (iso_now w) (iso_now (tick w)) [] [] [] None)))
  /\ (forall (st : State) (w : World),
        (forall t, accepts (platform w) t = true) ->
        exists (seed : AppData.t) (w1 : World),
          generateSeedData (with_storage w None) = Ok seed w1
          /\ AppData.version seed = "v1"
          /\ AppData.createdAt seed = iso_now w
          /\ Hook.data (fst (resetData st w))
             = Some (AppData.toJSON (AppData.set_lastUsedAt seed (iso_now w1))))
  /\ (forall (st : State) (w : World) (d : AppData.t),
        (forall t, accepts (platform w) t = true) ->
        AppData.version d <> "" ->
        Hook.data (fst (importData (exportDataAsJson (AppData.toJSON d)) st w))
        = Some (AppData.toJSON (AppData.set_lastUsedAt d (iso_now (tick w))))).
Proof.
  split; [exact updater_keeps_version_createdAt|].
  split; [exact updater_none|].
  split; [|split].
  - intros st w Hacc. unfold clearData, clearAllData, removeItem, bind, now_iso,
      bind, Date_now, the_platform, ret.
    cbn [with_storage platform storage clock reads random draws].
    unfold emptyData.
    rewrite save_store by apply Hacc. reflexivity.
  - intros st w Hacc.
    assert (Hacc' : forall t, accepts (platform (with_storage w None)) t = true)
      by apply Hacc.
    destruct (seed_and_save (with_storage w None) Hacc')
      as (seed & w1 & Hgen & Hrun & _).
    destruct (generateSeedData_ok (with_storage w None))
      as (seed' & w1' & Hgen' & _ & _ & _ & _ & _ & Hver & Hcr & _).
    rewrite Hgen in Hgen'. inversion Hgen'; subst seed' w1'.
    exists seed, w1. split; [exact Hgen|]. split; [exact Hver|].
    split; [exact Hcr|].
    unfold resetData. unfold bind at 1. unfold clearAllData, removeItem.
    rewrite (load_absent (with_storage w None) eq_refl Hacc').
    cbv zeta in Hrun. rewrite Hrun. reflexivity.
  - intros st w d Hacc Hv. unfold importData, AppData.toJSON.
    rewrite import_export_object.
    + rewrite save_object by apply Hacc. cbv zeta.
      rewrite set_prop_twice, props_stamp. reflexivity.
    + apply (wf_store d).
    + destruct d as [v c l ps qs es [a|]]; simpl in *;
        destruct (String.eqb_spec v ""); try contradiction; reflexivity.
Qed.

(** *** The statements at work on a small store *)

Lemma calculatePortionSummary_fields_witness :
  let s := calculatePortionSummary Demo.food Demo.spent in
  PortionSummary.used s = 140000
  /\ PortionSummary.remaining s = 3000000 - 140000
  /\ PortionSummary.isOverBudget s = (140000 >? 3000000)
  /\ PortionSummary.budget s = 3000000
  /\ (3000000 = 0 -> PortionSummary.percentUsed s = 0%Q).
Proof.
  apply (calculatePortionSummary_fields Demo.food Demo.spent 3000000 140000);
    reflexivity.
Defined.

Lemma compare_units_consistent : consistent Demo.compare_units.
Proof.
  assert (Hlt : forall a b, Demo.compare_units a b < 0 <-> String.compare a b = Lt).
  { intros a b. unfold Demo.compare_units.
    destruct (String.compare a b); split; intros H; try lia; try discriminate;
      reflexivity. }
  assert (Hgt : forall a b, 0 < Demo.compare_units a b <-> String.compare a b = Gt).
  { intros a b. unfold Demo.compare_units.
    destruct (String.compare a b); split; intros H; try lia; try discriminate;
      reflexivity. }
  assert (Hle : forall a b, Demo.compare_units a b <= 0 <-> String.compare a b <> Gt).
  { intros a b. rewrite <- Hgt. lia. }
  split; [|split].
  - intros a. unfold Demo.compare_units.
    pose proof (proj2 (OrderedTypeEx.String_as_OT.cmp_eq a a) eq_refl) as E.
    unfold OrderedTypeEx.String_as_OT.cmp in E. rewrite E. reflexivity.
  - intros a b. rewrite Hgt, Hlt, String.compare_antisym.
    destruct (String.compare b a); simpl; split; intros H;
      (reflexivity || discriminate H).
  - intros a b c. rewrite !Hle. intros Hab Hbc Hac.
    destruct (String.compare a b) eqn:Eab; [| |congruence].
    + apply String.compare_eq_iff in Eab. subst b. congruence.
    + destruct (String.compare b c) eqn:Ebc; [| |congruence].
      * apply String.compare_eq_iff in Ebc. subst c. congruence.
      * apply OrderedTypeEx.String_as_OT.cmp_lt in Eab, Ebc.
        pose proof (OrderedTypeEx.String_as_OT.lt_trans _ _ _ Eab Ebc) as Hlt'.
        apply OrderedTypeEx.String_as_OT.cmp_lt in Hlt'.
        unfold OrderedTypeEx.String_as_OT.cmp in Hlt'. congruence.
Qed.

Lemma getFilteredExpenses_exact_sorted_witness :
  let result :=
    getFilteredExpenses Demo.platform (Some Demo.store)
      (Some (mkFilters (Some "2025-11-05") (Some "2025-11-10") (Some ""))) in
  let wanted := fun e =>
    (Expense.periodId e =? "p-nov")%string
    && in_range (Some "2025-11-05") (Some "2025-11-10") (Expense.date e)
    && in_portion None e in
  Permutation result (filter wanted (AppData.expenses Demo.store))
  /\ (forall e, In e result <->
                In e (AppData.expenses Demo.store) /\ wanted e = true)
  /\ StronglySorted
       (fun a b => 0 <= localeCompare Demo.platform (Expense.date a)
                          (Expense.date b))
       result
  /\ getFilteredExpenses Demo.platform (Some Demo.store) None
     = getFilteredExpenses Demo.platform (Some Demo.store)
         (Some (mkFilters None None None)).
Proof.
  apply (getFilteredExpenses_exact_sorted Demo.platform Demo.store "p-nov"
           (Some "2025-11-05") (Some "2025-11-10") (Some "")).
  - reflexivity.
  - discriminate.
  - exact compare_units_consistent.
Defined.

(** The filter of the specification on the small store: 5 to 10 November,
    most recent first. *)
Example getFilteredExpenses_november :
  getFilteredExpenses Demo.platform (Some Demo.store)
    (Some (mkFilters (Some "2025-11-05") (Some "2025-11-10") None))
  = [Expense.mk "e3" "p-nov" "c-food" "2025-11-10" "Snack" 30000;
     Expense.mk "e2" "p-nov" "c-transport" "2025-11-07" "Ojek" 25000].
Proof. vm_compute. reflexivity. Qed.

(** The scenario of the specification: a period with an income of
    10000000, a portion of 3000000 and one expense of 50000. *)
Example calculatePeriodSummary_scenario :
  let s := calculatePeriodSummary Demo.nov
             [Portion.mk "c-food" "p-nov" "Food" 3000000 None]
             [Expense.mk "e1" "p-nov" "c-food" "2025-11-04" "Lunch" 50000] in
  PeriodSummary.totalIncome s = 10000000
  /\ PeriodSummary.totalBudgeted s = 3000000
  /\ PeriodSummary.totalExpenses s = 50000
  /\ PeriodSummary.unallocatedIncome s = 7000000
  /\ PeriodSummary.remainingBudget s = 2950000
  /\ PeriodSummary.isOverBudget s = false.
Proof. vm_compute. repeat split. Qed.

(** * Further properties of the code *)

(** ** Formatting *)

Lemma remove_group_thousands (class : ascii -> bool) (before : bool) (s : string) :
  class "."%char = true ->
  remove class (group_thousands before s) = remove class s.
Proof.
  intros Hdot. revert before. induction s as [|c s IH]; intros before.
  - reflexivity.
  - cbn [group_thousands].
    destruct (Bool.eqb before (is_word c) && groups_ahead (String c s));
      cbn [append remove]; rewrite ?Hdot, IH; reflexivity.
Qed.

Lemma remove_digits (class : ascii -> bool) (u : Decimal.uint) :
  (forall c, is_digit c = true -> class c = false) ->
  remove class (string_of_uint u) = string_of_uint u.
Proof.
  intros H.
  induction u as [|u IH|u IH|u IH|u IH|u IH|u IH|u IH|u IH|u IH|u IH];
    cbn [string_of_uint remove]; [reflexivity|..];
    rewrite H, IH by reflexivity; reflexivity.
Qed.

Lemma parse_digits_all (u : Decimal.uint) :
  parse_digits (string_of_uint u) = (u, "").
Proof.
  rewrite <- (append_empty_r (string_of_uint u)).
  apply parse_digits_string_of_uint. reflexivity.
Qed.

(** The digits of a number that is not negative. *)
Lemma abs_digits (n : Z) :
  exists u, string_of_Z (Z.abs n) = string_of_uint u
            /\ u <> Decimal.Nil /\ Z.of_int (Decimal.Pos u) = Z.abs n.
Proof.
  unfold string_of_Z.
  pose proof (to_int_normal (Z.abs n)) as Hnorm.
  pose proof (DecimalZ.of_to (Z.abs n)) as Hof.
  destruct (Z.to_int (Z.abs n)) as [u|u] eqn:E.
  - exists u. split; [reflexivity|]. split; [|exact Hof].
    intros ->. discriminate Hnorm.
  - exfalso. destruct n; discriminate E.
Qed.

Lemma parseInt10_digit_head (c : ascii) (r : string) :
  is_digit c = true ->
  parseInt10 (String c r)
  = match fst (parse_digits (String c r)) with
    | Decimal.Nil => None
    | u => Some (Z.of_int (Decimal.Pos u))
    end.
Proof.
  destruct c as [[] [] [] [] [] [] [] []]; intros H; try discriminate H;
    reflexivity.
Qed.

Lemma string_of_uint_head (u : Decimal.uint) :
  u <> Decimal.Nil ->
  exists c r, string_of_uint u = String c r /\ is_digit c = true.
Proof.
  intros Hu. destruct u; try congruence; eexists; eexists;
    (split; [reflexivity|reflexivity]).
Qed.

Lemma parseInt10_digits (u : Decimal.uint) :
  u <> Decimal.Nil ->
  parseInt10 (string_of_uint u) = Some (Z.of_int (Decimal.Pos u))
  /\ parseInt10 (String "-" (string_of_uint u)) = Some (Z.of_int (Decimal.Neg u)).
Proof.
  intros Hu. split.
  - destruct (string_of_uint_head u Hu) as (c & r & E & Hc).
    rewrite E, (parseInt10_digit_head c r Hc), <- E, parse_digits_all.
    cbn [fst]. destruct u; congruence.
  - change (parseInt10 (String "-" (string_of_uint u)))
      with (match fst (parse_digits (string_of_uint u)) with
            | Decimal.Nil => None
            | u0 => Some (Z.of_int (Decimal.Neg u0))
            end).
    rewrite parse_digits_all. cbn [fst]. destruct u; congruence.
Qed.

(** X1.  [parseCurrency] reads back what [formatCurrency] prints, for every
    amount that is a safe integer, negative or not. *)
Theorem parseCurrency_formatCurrency :
  forall amount : Z,
    Z.abs amount <= MAX_SAFE_INTEGER ->
    parseCurrency (formatCurrency amount) = amount.
Proof.
  intros n _. unfold parseCurrency, formatCurrency.
  destruct (abs_digits n) as (u & Hdigits & Hu & Hval).
  rewrite Hdigits.
  set (class := fun c : ascii =>
                  (c =? "R")%char || (c =? "p")%char || is_space c
                  || (c =? ".")%char).
  assert (Hclass : forall c, is_digit c = true -> class c = false).
  { intros c. destruct c as [[] [] [] [] [] [] [] []]; intros H;
      try discriminate H; reflexivity. }
  destruct (parseInt10_digits u Hu) as [Hpos Hneg].
  destruct (Z.ltb_spec n 0) as [Hlt|Hge].
  - change (remove class ("-Rp " ++ ?x))
      with (String "-" (remove class x)).
    rewrite remove_group_thousands by reflexivity.
    rewrite remove_digits by exact Hclass.
    rewrite Hneg. cbn [or_zero].
    change (Z.of_int (Decimal.Neg u)) with (- Z.of_int (Decimal.Pos u)).
    rewrite Hval. lia.
  - change (remove class ("Rp " ++ ?x)) with (remove class x).
    rewrite remove_group_thousands by reflexivity.
    rewrite remove_digits by exact Hclass.
    rewrite Hpos. cbn [or_zero]. rewrite Hval. lia.
Qed.

Lemma parseCurrency_formatCurrency_witness :
  parseCurrency (formatCurrency (-1234567)) = -1234567.
Proof.
  apply (parseCurrency_formatCurrency (-1234567)).
  unfold MAX_SAFE_INTEGER. lia.
Defined.

Lemma concat_cons (x : string) (xs : list string) :
  String.concat "" (x :: xs) = (x ++ String.concat "" xs)%string.
Proof.
  destruct xs as [|y ys]; simpl; [rewrite append_empty_r|]; reflexivity.
Qed.

Lemma digit_is_word (c : ascii) : is_digit c = true -> is_word c = true.
Proof.
  unfold is_word. intros ->. reflexivity.
Qed.

Lemma digit_run_uint (u : Decimal.uint) :
  digit_run (string_of_uint u) = String.length (string_of_uint u).
Proof.
  induction u as [|u IH|u IH|u IH|u IH|u IH|u IH|u IH|u IH|u IH|u IH];
    cbn [string_of_uint digit_run String.length]; [reflexivity|..];
    change (is_digit (digit_char _)) with true; cbv iota; rewrite IH;
    reflexivity.
Qed.

Lemma mod3_succ (m : nat) :
  ((S m) mod 3 = 0 /\ m mod 3 = 2)%nat
  \/ ((S m) mod 3 <> 0 /\ (S m) mod 3 = S (m mod 3))%nat.
Proof.
  pose proof (Nat.div_mod_eq m 3) as E1.
  pose proof (Nat.div_mod_eq (S m) 3) as E2.
  pose proof (Nat.mod_upper_bound m 3 ltac:(lia)) as B1.
  pose proof (Nat.mod_upper_bound (S m) 3 ltac:(lia)) as B2.
  lia.
Qed.

Lemma groups_ahead_digits (c : ascii) (s : string) :
  is_digit c = true -> digit_run s = String.length s ->
  groups_ahead (String c s) = (S (String.length s) mod 3 =? 0)%nat.
Proof.
  intros Hc Hrun. unfold groups_ahead. cbn [digit_run]. rewrite Hc, Hrun.
  reflexivity.
Qed.

(** Inside a run of digits, the dots cut groups of three from the right. *)
Lemma group_thousands_inside (s : string) :
  digit_run s = String.length s ->
  exists (lead : string) (groups : list string),
    s = (lead ++ String.concat "" groups)%string
    /\ String.length lead = (String.length s mod 3)%nat
    /\ Forall (fun g => String.length g = 3%nat) groups
    /\ group_thousands true s
       = (lead ++ String.concat "" (map (String ".") groups))%string.
Proof.
  induction s as [|c s IH]; intros Hrun.
  - exists "", []. repeat split. constructor.
  - cbn [digit_run String.length] in Hrun.
    destruct (is_digit c) eqn:Hc; [|discriminate Hrun].
    injection Hrun as Hrun.
    destruct (IH Hrun) as (lead & groups & Hs & Hlen & Hall & Hout).
    cbn [group_thousands]. rewrite (digit_is_word c Hc). cbn [Bool.eqb andb].
    rewrite (groups_ahead_digits c s Hc Hrun).
    destruct (mod3_succ (String.length s)) as [[H0 H2] | [Hn0 HS]].
    + rewrite H0. cbn [Nat.eqb].
      rewrite H2 in Hlen.
      destruct lead as [|a [|b [|x lead]]]; try discriminate Hlen.
      exists "", (String c (String a (String b "")) :: groups).
      split; [|split; [|split]].
      * rewrite concat_cons. cbn [append]. rewrite Hs. reflexivity.
      * cbn [String.length]. rewrite H0. reflexivity.
      * constructor; [reflexivity|exact Hall].
      * cbn [map]. rewrite concat_cons, Hout. reflexivity.
    + destruct (Nat.eqb_spec (S (String.length s) mod 3) 0) as [E|_];
        [contradiction|].
      exists (String c lead), groups.
      split; [|split; [|split]].
      * cbn [append]. rewrite <- Hs. reflexivity.
      * cbn [String.length]. rewrite HS, Hlen. reflexivity.
      * exact Hall.
      * cbn [append]. rewrite Hout. reflexivity.
Qed.

(** X2.  For an amount that is a safe integer, [formatCurrency] prints the
    mark (Rp, with a minus sign before it for a
    negative amount) and then the decimal digits of the absolute value with
    a dot before every group of three digits counted from the right: a
    first group of one to three digits, then groups of exactly three. *)
Theorem formatCurrency_groups :
  forall amount : Z,
  Z.abs amount <= MAX_SAFE_INTEGER ->
  exists (first : string) (groups : list string),
    string_of_Z (Z.abs amount) = (first ++ String.concat "" groups)%string
    /\ (1 <= String.length first <= 3)%nat
    /\ Forall (fun g => String.length g = 3%nat) groups
    /\ formatCurrency amount
       = (currency_mark amount ++ first
          ++ String.concat "" (map (String ".") groups))%string.
Proof.
  intros n _. destruct (abs_digits n) as (u & Hdigits & Hu & _).
  destruct (string_of_uint_head u Hu) as (c & r & E & Hc).
  assert (Hrun : digit_run r = String.length r).
  { pose proof (digit_run_uint u) as H. rewrite E in H.
    cbn [digit_run String.length] in H. rewrite Hc in H.
    injection H as H. exact H. }
  destruct (group_thousands_inside r Hrun)
    as (lead & groups & Hr & Hlen & Hall & Hout).
  exists (String c lead), groups.
  split; [|split; [|split]].
  - rewrite Hdigits, E. cbn [append]. rewrite <- Hr. reflexivity.
  - cbn [String.length]. rewrite Hlen.
    pose proof (Nat.mod_upper_bound (String.length r) 3 ltac:(lia)). lia.
  - exact Hall.
  - unfold formatCurrency, currency_mark. rewrite Hdigits, E.
    cbn [group_thousands]. rewrite (digit_is_word c Hc).
    cbn [Bool.eqb andb append]. rewrite Hout.
    destruct (n <? 0); reflexivity.
Qed.

Lemma formatCurrency_groups_witness :
  exists (first : string) (groups : list string),
    string_of_Z (Z.abs (-1234567)) = (first ++ String.concat "" groups)%string
    /\ (1 <= String.length first <= 3)%nat
    /\ Forall (fun g => String.length g = 3%nat) groups
    /\ formatCurrency (-1234567)
       = (currency_mark (-1234567) ++ first
          ++ String.concat "" (map (String ".") groups))%string.
Proof.
  apply (formatCurrency_groups (-1234567)).
  unfold MAX_SAFE_INTEGER. lia.
Defined.

(** X3.  [formatDateForInput] gives the part of a timestamp before its
    first T, and leaves a text without T as it is. *)
Theorem formatDateForInput_date :
  forall (date time : string),
    (forall c, In c (list_ascii_of_string date) -> c <> "T"%char) ->
    formatDateForInput (date ++ String "T" time) = date
    /\ formatDateForInput date = date.
Proof.
  intros date time. unfold formatDateForInput.
  induction date as [|c d IH]; intros H.
  - split; reflexivity.
  - cbn [append before_T].
    destruct (Ascii.eqb_spec c "T") as [->|Hc].
    + exfalso. apply (H "T"%char); [left; reflexivity|reflexivity].
    + destruct IH as [IH1 IH2].
      { intros x Hx. apply H. right. exact Hx. }
      rewrite IH1, IH2. split; reflexivity.
Qed.

Lemma formatDateForInput_date_witness :
  formatDateForInput ("2025-11-15" ++ String "T" "10:00:00.000Z") = "2025-11-15"
  /\ formatDateForInput "2025-11-15" = "2025-11-15".
Proof.
  apply (formatDateForInput_date "2025-11-15" "10:00:00.000Z").
  intros c Hc. simpl in Hc.
  repeat (destruct Hc as [<- | Hc]; [discriminate|]). destruct Hc.
Defined.

(** X4.  With a storage that accepts every write,
    [loadDataFromLocalStorage] never throws, whatever the slot holds (nothing,
    the empty string, text that is not JSON, JSON that is no object, an
    expired or a current store); when it returns, the slot holds
    [JSON.stringify] of the data it returns. *)
Theorem load_returns_when_storage_accepts (w : World) :
  (forall text, accepts (platform w) text = true) ->
  exists (d : JSON) (b : bool) (w' : World),
    loadDataFromLocalStorage w = Ok (mkLoaded d b) w'
    /\ storage w' = Some (stringify d)
    /\ platform w' = platform w.
Proof.
  intros Hacc.
  destruct (load_shape w)
    as (b & d & w0 & seed & w2 & Hp0 & _ & _ & _ & Hst & Hload).
  assert (Hsave : exists d', save_and_return b d w0
                    = Ok (mkLoaded d' b)
                         (with_storage (tick w0) (Some (stringify d')))).
  { rewrite save_and_return_eq.
    destruct (stamped d w0) as [d'|]; [|congruence].
    rewrite Hp0, Hacc. exists d'. reflexivity. }
  destruct Hsave as [d' Hsave]. rewrite Hsave in Hload.
  exists d', b, (with_storage (tick w0) (Some (stringify d'))).
  split; [destruct Hload as [H|H]; exact H|].
  split; [reflexivity|exact Hp0].
Qed.

Lemma load_returns_when_storage_accepts_witness :
  exists (d : JSON) (b : bool) (w' : World),
    loadDataFromLocalStorage (Demo.world (Some "{not json")) = Ok (mkLoaded d b) w'
    /\ storage w' = Some (stringify d)
    /\ platform w' = platform (Demo.world (Some "{not json")).
Proof.
  apply (load_returns_when_storage_accepts (Demo.world (Some "{not json"))).
  intros text. reflexivity.
Defined.

(** X5.  With a storage that refuses every write,
    [loadDataFromLocalStorage] throws out of its own [catch] block: the error
    is the one of [saveDataToLocalStorage], the slot is left as it was, and
    the mount effect of the hook leaves the state untouched, so [loading]
    stays [true]. *)
Theorem load_throws_when_storage_refuses (w : World) :
  (forall text, accepts (platform w) text = false) ->
  exists w' : World,
    loadDataFromLocalStorage w = Throw failed_to_save w'
    /\ storage w' = storage w
    /\ Hook.mount Hook.initial w = (Hook.initial, Throw failed_to_save w').
Proof.
  intros Hacc.
  assert (Hsave : forall b d w0,
            platform w0 = platform w ->
            save_and_return b d w0 = Throw failed_to_save (tick w0)).
  { intros b d w0 Hp. rewrite save_and_return_eq.
    destruct (stamped d w0) as [d'|]; [|reflexivity].
    rewrite Hp, Hacc. reflexivity. }
  destruct (load_shape w)
    as (b & d & w0 & seed & w2 & Hp0 & Hs0 & Hp2 & Hs2 & _ & Hload).
  rewrite (Hsave b d w0 Hp0), (Hsave false _ w2 Hp2) in Hload.
  destruct Hload as [Hload|Hload].
  - exists (tick w0). split; [exact Hload|]. split; [exact Hs0|].
    unfold Hook.mount. rewrite Hload. reflexivity.
  - exists (tick w2). split; [exact Hload|]. split; [exact Hs2|].
    unfold Hook.mount. rewrite Hload. reflexivity.
Qed.

Lemma load_throws_when_storage_refuses_witness :
  exists w' : World,
    loadDataFromLocalStorage (Sample.full_world None) = Throw failed_to_save w'
    /\ storage w' = storage (Sample.full_world None)
    /\ Hook.mount Hook.initial (Sample.full_world None)
       = (Hook.initial, Throw failed_to_save w').
Proof.
  apply (load_throws_when_storage_refuses (Sample.full_world None)).
  intros text. reflexivity.
Defined.





(** ** Referential integrity *)

Lemma has_period_iff (d : AppData.t) (i : string) :
  has_period d i = true
  <-> exists q, In q (AppData.periods d) /\ Period.id q = i.
Proof.
  unfold has_period. rewrite existsb_exists.
  split; intros (q & Hq & E); exists q; (split; [exact Hq|]);
    apply String.eqb_eq; exact E.
Qed.

Lemma intact_iff (d : AppData.t) :
  intact d = true
  <-> (forall p, In p (AppData.portions d) ->
                 has_period d (Portion.periodId p) = true)
      /\ (forall e, In e (AppData.expenses d) ->
                    exists p, In p (AppData.portions d)
                              /\ Portion.id p = Expense.portionId e
                              /\ Portion.periodId p = Expense.periodId e)
      /\ (forall a, AppData.activePeriodId d = Some a ->
                    has_period d a = true).
Proof.
  unfold intact. rewrite !andb_true_iff, !forallb_forall.
  split.
  - intros [[Hp He] Ha]. split; [exact Hp|]. split.
    + intros e Hin. specialize (He e Hin).
      apply existsb_exists in He. destruct He as (p & Hpin & Hb).
      apply andb_true_iff in Hb. destruct Hb as [E1 E2].
      exists p. split; [exact Hpin|].
      split; apply String.eqb_eq; assumption.
    + intros a E. rewrite E in Ha. exact Ha.
  - intros (Hp & He & Ha). split; [split; [exact Hp|]|].
    + intros e Hin. destruct (He e Hin) as (p & Hpin & E1 & E2).
      apply existsb_exists. exists p. split; [exact Hpin|].
      apply andb_true_iff. split; apply String.eqb_eq; assumption.
    + destruct (AppData.activePeriodId d) as [a|]; [|reflexivity].
      apply Ha. reflexivity.
Qed.

Lemma differs_iff (a b : string) : differs a b = true <-> a <> b.
Proof.
  unfold differs. rewrite negb_true_iff. apply String.eqb_neq.
Qed.

(** X7.  The three deletions of the hook keep the store referentially
    intact: after [deletePeriod], [deletePortion] or [deleteExpense], with
    whatever id, every portion still lies in a period of the store, every
    expense still names a portion of its own period, and the active period
    is still a period of the store. *)
Theorem deletions_keep_intact (d d' : AppData.t) (id : string) :
  intact d = true ->
  deletePeriod id (Some d) = Some d'
  \/ deletePortion id (Some d) = Some d'
  \/ deleteExpense id (Some d) = Some d' ->
  intact d' = true.
Proof.
  intros Hd Hdel. apply intact_iff in Hd. destruct Hd as (Hp & He & Ha).
  apply intact_iff.
  destruct Hdel as [H|[H|H]];
    [unfold deletePeriod in H; cbv beta iota zeta in H| |];
    injection H as <-;
    cbn [AppData.portions AppData.expenses AppData.activePeriodId].
  - split; [|split].
    + intros p Hin. apply filter_In in Hin. destruct Hin as [Hin Hne].
      apply has_period_iff. cbn [AppData.periods].
      destruct (proj1 (has_period_iff d _) (Hp p Hin)) as (q & Hq & E).
      exists q. split; [|exact E]. apply filter_In. split; [exact Hq|].
      rewrite E. exact Hne.
    + intros e Hin. apply filter_In in Hin. destruct Hin as [Hin Hne].
      destruct (He e Hin) as (p & Hpin & E1 & E2).
      exists p. split; [|split; assumption].
      apply filter_In. split; [exact Hpin|]. rewrite E2. exact Hne.
    + intros a E. revert E.
      destruct (filter (fun p => differs (Period.id p) id) (AppData.periods d))
        as [|first rest]; intros E; [discriminate E|].
      injection E as <-. apply has_period_iff. cbn [AppData.periods].
      exists first. split; [|reflexivity]. left. reflexivity.
  - split; [|split].
    + intros p Hin. apply filter_In in Hin. destruct Hin as [Hin _].
      exact (Hp p Hin).
    + intros e Hin. apply filter_In in Hin. destruct Hin as [Hin Hne].
      destruct (He e Hin) as (p & Hpin & E1 & E2).
      exists p. split; [|split; assumption].
      apply filter_In. split; [exact Hpin|]. rewrite E1. exact Hne.
    + exact Ha.
  - split; [|split].
    + exact Hp.
    + intros e Hin. apply filter_In in Hin. destruct Hin as [Hin _].
      exact (He e Hin).
    + exact Ha.
Qed.

Lemma deletions_keep_intact_witness :
  intact (AppData.mk "v1" "2025-11-01T08:00:00.000Z" "2025-11-14T08:00:00.000Z"
            [Demo.nov] [Demo.transport]
            [Expense.mk "e2" "p-nov" "c-transport" "2025-11-10" "Ojek" 25000]
            (Some "p-nov"))
  = true.
Proof.
  apply (deletions_keep_intact Sample.store _ "c-food").
  - reflexivity.
  - right. left. reflexivity.
Defined.

(** X8.  The three additions keep the store intact when the new record
    names what the store has: [addPeriod] always (the new period becomes
    the active one), [addPortion] when the period of the portion is in the
    store, [addExpense] when a portion of the store has the id and the
    period that the expense names. *)
Theorem additions_keep_intact (d d' : AppData.t) :
  intact d = true ->
  (exists p, addPeriod p (Some d) = Some d')
  \/ (exists p, has_period d (Portion.periodId p) = true
                /\ addPortion p (Some d) = Some d')
  \/ (exists e p, In p (AppData.portions d)
                  /\ Portion.id p = Expense.portionId e
                  /\ Portion.periodId p = Expense.periodId e
                  /\ addExpense e (Some d) = Some d') ->
  intact d' = true.
Proof.
  intros Hd Hadd. apply intact_iff in Hd. destruct Hd as (Hp & He & Ha).
  assert (Hmore : forall i q,
            has_period d i = true ->
            has_period (AppData.mk (AppData.version d) (AppData.createdAt d)
                          (AppData.lastUsedAt d) (AppData.periods d ++ [q])
                          (AppData.portions d) (AppData.expenses d)
                          (Some (Period.id q))) i = true).
  { intros i q H. apply has_period_iff in H. destruct H as (x & Hx & E).
    apply has_period_iff. exists x. split; [|exact E].
    cbn [AppData.periods]. apply in_or_app. left. exact Hx. }
  apply intact_iff.
  destruct Hadd as [(q & H)|[(p & Hper & H)|(e & p & Hin & E1 & E2 & H)]];
    injection H as <-;
    cbn [AppData.portions AppData.expenses AppData.activePeriodId].
  - split; [|split].
    + intros p Hin. apply Hmore. exact (Hp p Hin).
    + exact He.
    + intros a E. injection E as <-. apply has_period_iff.
      exists q. split; [|reflexivity].
      cbn [AppData.periods]. apply in_or_app. right. left. reflexivity.
  - split; [|split].
    + intros x Hin. apply in_app_or in Hin. destruct Hin as [Hin|[<-|[]]].
      * exact (Hp x Hin).
      * exact Hper.
    + intros e Hin. destruct (He e Hin) as (x & Hx & E1 & E2).
      exists x. split; [|split; assumption]. apply in_or_app. left. exact Hx.
    + exact Ha.
  - split; [|split].
    + exact Hp.
    + intros x Hx. apply in_app_or in Hx. destruct Hx as [Hx|[<-|[]]].
      * exact (He x Hx).
      * exists p. split; [exact Hin|]. split; assumption.
    + exact Ha.
Qed.

Lemma additions_keep_intact_witness :
  intact (AppData.mk "v1" "2025-11-01T08:00:00.000Z" "2025-11-14T08:00:00.000Z"
            [Demo.nov] [Demo.food; Demo.transport]
            (Sample.spent
             ++ [Expense.mk "e9" "p-nov" "c-food" "2025-11-12" "Dinner" 60000])
            (Some "p-nov"))
  = true.
Proof.
  apply (additions_keep_intact Sample.store).
  - reflexivity.
  - right. right.
    exists (Expense.mk "e9" "p-nov" "c-food" "2025-11-12" "Dinner" 60000),
      Demo.food.
    split; [left; reflexivity|]. split; [reflexivity|].
    split; reflexivity.
Defined.

Lemma map_unless {A} (f : A -> A) (P : A -> bool) (l : list A) :
  (forall x, In x l -> P x = false) ->
  map (fun x => if P x then f x else x) l = l.
Proof.
  induction l as [|x l IH]; intros H; simpl; [reflexivity|].
  rewrite (H x (or_introl eq_refl)), IH; [reflexivity|].
  intros y Hy. apply H. right. exact Hy.
Qed.

(** X9.  An update that names an id that the store does not have changes
    nothing: [updatePeriod], [updatePortion] and [updateExpense] never make
    a record, and leave every record and the active period as they are. *)
Theorem update_of_unknown_id (d d' : AppData.t) (id : string) :
  (exists u, (forall p, In p (AppData.periods d) -> Period.id p <> id)
             /\ updatePeriod id u (Some d) = Some d')
  \/ (exists u, (forall p, In p (AppData.portions d) -> Portion.id p <> id)
                /\ updatePortion id u (Some d) = Some d')
  \/ (exists u, (forall e, In e (AppData.expenses d) -> Expense.id e <> id)
                /\ updateExpense id u (Some d) = Some d') ->
  d' = d.
Proof.
  intros [(u & Hno & H)|[(u & Hno & H)|(u & Hno & H)]];
    injection H as <-; rewrite map_unless; try (destruct d; reflexivity);
    intros x Hx; apply String.eqb_neq; apply Hno; exact Hx.
Qed.

Lemma update_of_unknown_id_witness :
  AppData.mk "v1" "2025-11-01T08:00:00.000Z" "2025-11-14T08:00:00.000Z"
    [Demo.nov] [Demo.food; Demo.transport] Sample.spent (Some "p-nov")
  = Sample.store.
Proof.
  apply (update_of_unknown_id Sample.store _ "e7").
  right. right.
  exists (Expense.mkPartial None None None None None (Some 1)).
  split; [|reflexivity].
  intros e He. simpl in He.
  repeat (destruct He as [<- | He]; [discriminate|]). destruct He.
Defined.

Lemma filter_none {A} (P : A -> bool) (l : list A) :
  (forall x, In x l -> P x = false) -> filter P l = [].
Proof.
  induction l as [|x l IH]; intros H; simpl; [reflexivity|].
  rewrite (H x (or_introl eq_refl)). apply IH.
  intros y Hy. apply H. right. exact Hy.
Qed.

Lemma find_app_fresh {A} (P : A -> bool) (l : list A) (x : A) :
  (forall y, In y l -> P y = false) -> P x = true ->
  find P (l ++ [x]) = Some x.
Proof.
  induction l as [|y l IH]; intros H Hx; simpl.
  - rewrite Hx. reflexivity.
  - rewrite (H y (or_introl eq_refl)). apply IH; [|exact Hx].
    intros z Hz. apply H. right. exact Hz.
Qed.

(** X10.  A period added with a fresh id starts empty: in an intact
    store, after [addPeriod] the hook derives that period as the active
    one, with no portion and no expense, and its summary shows the whole
    income as unallocated. *)
Theorem added_period_starts_empty (d : AppData.t) (p : Period.t) :
  intact d = true ->
  (forall q, In q (AppData.periods d) -> Period.id q <> Period.id p) ->
  let d' := addPeriod p (Some d) in
  View.activePeriod d' = Some p
  /\ View.activePortions d' = []
  /\ View.activeExpenses d' = []
  /\ View.periodSummary d'
     = Some (PeriodSummary.mk (Period.incomeAmount p) 0 0 0
               (Period.incomeAmount p) (Period.incomeAmount p) 0%Q false).
Proof.
  intros Hd Hfresh d'. apply intact_iff in Hd. destruct Hd as (Hp & He & _).
  assert (Hportions : forall x, In x (AppData.portions d) ->
            (Portion.periodId x =? Period.id p)%string = false).
  { intros x Hx. apply String.eqb_neq. intros E.
    destruct (proj1 (has_period_iff d _) (Hp x Hx)) as (q & Hq & Eq).
    apply (Hfresh q Hq). congruence. }
  assert (Hexpenses : forall e, In e (AppData.expenses d) ->
            (Expense.periodId e =? Period.id p)%string = false).
  { intros e Hin. destruct (He e Hin) as (x & Hx & _ & E).
    rewrite <- E. apply Hportions. exact Hx. }
  assert (Hfind : View.activePeriod d' = Some p).
  { unfold d', View.activePeriod, addPeriod.
    cbn [AppData.activePeriodId AppData.periods].
    apply find_app_fresh; [|apply String.eqb_refl].
    intros q Hq. apply String.eqb_neq. apply Hfresh. exact Hq. }
  split; [exact Hfind|].
  split; [apply filter_none; exact Hportions|].
  split; [apply filter_none; exact Hexpenses|].
  unfold View.periodSummary. rewrite Hfind.
  unfold d', addPeriod, calculatePeriodSummary.
  cbn [AppData.portions AppData.expenses].
  rewrite (filter_none _ _ Hportions), (filter_none _ _ Hexpenses).
  cbn. rewrite !Z.sub_0_r. reflexivity.
Qed.

Lemma added_period_starts_empty_witness :
  let p := Period.mk "p-dec" "Dec 2025" "2025-12-01" "2025-12-31" 9000000 in
  let d' := addPeriod p (Some Sample.store) in
  View.activePeriod d' = Some p
  /\ View.activePortions d' = []
  /\ View.activeExpenses d' = []
  /\ View.periodSummary d'
     = Some (PeriodSummary.mk (Period.incomeAmount p) 0 0 0
               (Period.incomeAmount p) (Period.incomeAmount p) 0%Q false).
Proof.
  apply (added_period_starts_empty Sample.store
           (Period.mk "p-dec" "Dec 2025" "2025-12-01" "2025-12-31" 9000000)).
  - reflexivity.
  - intros q Hq. simpl in Hq. destruct Hq as [<- | []]. discriminate.
Defined.

(** The seed store, with the ids that [generateId] handed out. *)
Lemma generateSeedData_shape (w : World) :
  exists (w1 : World) (now name startDate endDate today : string)
         (periodId id0 id1 id2 id3 id4 e0 e1 e2 : string),
    generateSeedData w
    = Ok (AppData.mk "v1" now now
            [Period.mk periodId name startDate endDate 10000000]
            [Portion.mk id0 periodId "Food" 3000000
               (Some "Daily meals and groceries");
             Portion.mk id1 periodId "Transport" 1000000
               (Some "Ojek, fuel, parking");
             Portion.mk id2 periodId "Bills" 2000000
               (Some "Electricity, water, internet");
             Portion.mk id3 periodId "Entertainment" 500000
               (Some "Movies, games, hobbies");
             Portion.mk id4 periodId "Savings" 3500000
               (Some "Emergency fund and investments")]
            [Expense.mk e0 periodId id0 today "Lunch nasi goreng" 50000;
             Expense.mk e1 periodId id0 today "Snack and coffee" 30000;
             Expense.mk e2 periodId id1 today "Ojek to office" 25000]
            (Some periodId)) w1.
Proof.
  unfold generateSeedData.
  unfold bind at 1. rewrite Date_now_ok. cbv beta iota.
  unfold bind at 1. unfold the_platform at 1. cbv beta iota.
  do 9 (unfold bind at 1; rewrite generateId_ok; cbv beta iota).
  unfold ret. do 15 eexists. reflexivity.
Qed.

(** X11.  Whatever the clock and the random source give, also when ids
    collide, the seed store of [generateSeedData] is referentially intact
    and its budgets allocate the whole income: the summary of its period
    shows 10000000 budgeted of 10000000, 105000 spent, nothing
    unallocated. *)
Theorem seed_intact_and_allocated (w : World) :
  exists (seed : AppData.t) (w1 : World),
    generateSeedData w = Ok seed w1
    /\ intact seed = true
    /\ View.periodSummary (Some seed)
       = Some (PeriodSummary.mk 10000000 10000000 105000 9895000 9895000 0
                 (percent 105000 10000000) false).
Proof.
  destruct (generateSeedData_shape w)
    as (w1 & now & name & sd & ed & today & pid & i0 & i1 & i2 & i3 & i4
        & e0 & e1 & e2 & H).
  eexists. exists w1. split; [exact H|]. split.
  - unfold intact, has_period.
    cbn [AppData.portions AppData.expenses AppData.periods
         AppData.activePeriodId Portion.periodId Portion.id Period.id
         Expense.portionId Expense.periodId forallb existsb].
    rewrite !String.eqb_refl.
    repeat match goal with
           | |- context [(?a =? ?b)%string] => destruct (a =? b)%string
           end; reflexivity.
  - unfold View.periodSummary, View.activePeriod, calculatePeriodSummary.
    cbn [AppData.portions AppData.expenses AppData.periods
         AppData.activePeriodId Portion.periodId Period.id Expense.periodId
         find filter].
    rewrite ?String.eqb_refl.
    cbn [Period.id filter Portion.periodId Expense.periodId].
    rewrite ?String.eqb_refl. reflexivity.
Qed.

(** ** The figures of the categories against the figures of the period *)








(** ** The list of the [Expenses] page *)

Lemma insert_by_keeps_class {A} (cmp : A -> A -> Z) (P : A -> bool)
    (x : A) (l : list A) :
  (forall y, P x = true -> P y = true -> cmp x y <= 0) ->
  filter P (insert_by cmp x l) = filter P (x :: l).
Proof.
  intros Hclass. induction l as [|y t IH]; [reflexivity|].
  cbn [insert_by]. destruct (Z.ltb_spec 0 (cmp x y)) as [Hlt|_]; [|reflexivity].
  cbn [filter] in *. rewrite IH.
  destruct (P x) eqn:Px, (P y) eqn:Py; try reflexivity.
  specialize (Hclass y eq_refl Py). lia.
Qed.

Lemma sort_by_keeps_class {A} (cmp : A -> A -> Z) (P : A -> bool)
    (l : list A) :
  (forall x y, P x = true -> P y = true -> cmp x y <= 0) ->
  filter P (sort_by cmp l) = filter P l.
Proof.
  intros Hclass. induction l as [|x l IH]; [reflexivity|].
  cbn [sort_by fold_right]. fold (sort_by cmp l).
  rewrite insert_by_keeps_class by (apply Hclass).
  cbn [filter]. rewrite IH. reflexivity.
Qed.

(** X13.  [getFilteredExpenses] keeps the order of the store among the
    expenses of one date: with an active period and a consistent
    [localeCompare], the expenses of a date [t] in the result are the
    wanted expenses of that date in the order in which the store holds
    them. *)
Theorem getFilteredExpenses_stable :
  forall (pf : Platform) (data : AppData.t) (active : string)
         (filters : option Filters) (t : string),
    nonempty (AppData.activePeriodId data) = Some active ->
    consistent (localeCompare pf) ->
    let wanted := fun e =>
      (Expense.periodId e =? active)%string
      && in_range (given filters startDate) (given filters endDate)
           (Expense.date e)
      && in_portion (given filters portionId) e in
    filter (fun e => (Expense.date e =? t)%string)
           (getFilteredExpenses pf (Some data) filters)
    = filter (fun e => (Expense.date e =? t)%string)
             (filter wanted (AppData.expenses data)).
Proof.
  intros pf data active filters t Hactive (Hrefl & _ & _) wanted.
  unfold getFilteredExpenses. rewrite Hactive.
  rewrite !filter_if_spec, !filter_filter.
  rewrite sort_by_keeps_class.
  - rewrite !filter_filter. apply filter_ext. intros e.
    subst wanted. unfold in_range, in_portion. cbv beta.
    rewrite <- !andb_assoc. reflexivity.
  - intros x y Hx Hy. cbv beta in *.
    apply String.eqb_eq in Hx. apply String.eqb_eq in Hy.
    rewrite Hx, Hy, Hrefl. lia.
Qed.

Lemma getFilteredExpenses_stable_witness :
  filter (fun e => (Expense.date e =? "2025-11-07")%string)
         (getFilteredExpenses Demo.platform (Some Sample.store) None)
  = [Expense.mk "e1" "p-nov" "c-food" "2025-11-07" "Lunch" 50000;
     Expense.mk "e3" "p-nov" "c-food" "2025-11-07" "Snack" 30000].
Proof.
  apply (getFilteredExpenses_stable Demo.platform Sample.store "p-nov" None
           "2025-11-07").
  - reflexivity.
  - exact compare_units_consistent.
Defined.

Lemma filter_if_incl {A} (x : option string) (keep : string -> A -> bool)
    (l : list A) (a : A) :
  In a (filter_if x keep l) -> In a l.
Proof.
  destruct x as [s|]; simpl; [|exact (fun H => H)].
  intros H. apply filter_In in H. exact (proj1 H).
Qed.

(** X14.  The entry [All categories] of the category filter hands the
    text [all] to [getFilteredExpenses] as a portion id: unless an expense
    names a portion with that id, the page then lists no expense at all,
    whatever the date bounds.  With the three filter fields empty, as
    [Clear] leaves them, no filter applies. *)
Theorem all_categories_lists_nothing :
  forall (pf : Platform) (data : AppData.t) (from to : string),
    (forall e, In e (AppData.expenses data) -> Expense.portionId e <> "all") ->
    Forms.filteredExpenses pf (Some data) "all" from to = []
    /\ Forms.filteredExpenses pf (Some data) "" "" ""
       = getFilteredExpenses pf (Some data) None.
Proof.
  intros pf data from to Hnone. split; [|reflexivity].
  unfold Forms.filteredExpenses, getFilteredExpenses.
  destruct (nonempty (AppData.activePeriodId data)) as [active|];
    [|reflexivity].
  cbv zeta.
  assert (Hall : forall f, portionId f = Some "all" ->
                           given (Some f) portionId = Some "all")
    by (intros f Hf; unfold given; rewrite Hf; reflexivity).
  rewrite Hall by reflexivity. cbn [filter_if].
  rewrite filter_none; [reflexivity|].
  intros e He. apply String.eqb_neq. apply Hnone.
  apply filter_if_incl in He. apply filter_if_incl in He.
  apply filter_In in He. exact (proj1 He).
Qed.

Lemma all_categories_lists_nothing_witness :
  Forms.filteredExpenses Demo.platform (Some Sample.store) "all" "" "" = []
  /\ Forms.filteredExpenses Demo.platform (Some Sample.store) "" "" ""
     = getFilteredExpenses Demo.platform (Some Sample.store) None.
Proof.
  apply (all_categories_lists_nothing Demo.platform Sample.store "" "").
  intros e He. simpl in He.
  repeat (destruct He as [<- | He]; [discriminate|]). destruct He.
Defined.

(** ** The dialogs of [PeriodManager] and [Expenses] *)

Lemma parseInt10_string_of_Z (n : Z) :
  parseInt10 (Forms.without_dots (string_of_Z n)) = Some n.
Proof.
  assert (Hclass : forall c, is_digit c = true -> (c =? ".")%char = false).
  { intros c. destruct c as [[] [] [] [] [] [] [] []]; intros H;
      try discriminate H; reflexivity. }
  pose proof (to_int_normal n) as Hnorm.
  pose proof (DecimalZ.of_to n) as Hof.
  unfold string_of_Z, Forms.without_dots.
  destruct (Z.to_int n) as [u|u] eqn:E; cbn [Decimal.abs] in Hnorm.
  - assert (Hu : u <> Decimal.Nil) by (intros ->; discriminate Hnorm).
    rewrite remove_digits by exact Hclass.
    rewrite (proj1 (parseInt10_digits u Hu)), Hof. reflexivity.
  - assert (Hu : u <> Decimal.Nil) by (intros ->; discriminate Hnorm).
    cbn [remove]. change ("-" =? ".")%char with false. cbv iota.
    rewrite remove_digits by exact Hclass.
    rewrite (proj2 (parseInt10_digits u Hu)), Hof. reflexivity.
Qed.

Lemma not_positive_false (x : option Z) :
  Forms.not_positive x = false -> exists z, x = Some z /\ 0 < z.
Proof.
  destruct x as [z|]; [|discriminate]. unfold Forms.not_positive.
  intros H. exists z. split; [reflexivity|].
  apply orb_false_iff in H. destruct H as [_ H].
  apply Z.leb_gt in H. exact H.
Qed.

(** X15.  What the period dialog hands to the hook is valid: [handleSubmit]
    of [PeriodManager] either shows a message and calls nothing, or calls
    [addPeriod] (only when no period is being edited) or [updatePeriod]
    (only for the period being edited, never changing its id); in both
    calls the name is the trimmed name of the form and not empty, the two
    dates are those of the form and not empty, and the income is above
    zero. *)
Theorem submitPeriod_valid :
  forall (form : Forms.PeriodForm) (editing : option Period.t),
    match Forms.submitPeriod form editing with
    | Forms.Rejected _ => True
    | Forms.Add f =>
        editing = None
        /\ Period.f_name f = trim (Forms.name form)
        /\ Period.f_name f <> ""
        /\ Period.f_startDate f = Forms.startDate form
        /\ Period.f_startDate f <> ""
        /\ Period.f_endDate f = Forms.endDate form
        /\ Period.f_endDate f <> ""
        /\ 0 < Period.f_incomeAmount f
    | Forms.Update i u =>
        (exists p, editing = Some p /\ i = Period.id p
                   /\ Period.u_id u = None
                   /\ Period.id (mergePeriod p u) = Period.id p
                   /\ Period.name (mergePeriod p u) = trim (Forms.name form)
                   /\ Period.name (mergePeriod p u) <> ""
                   /\ Period.startDate (mergePeriod p u) = Forms.startDate form
                   /\ Period.startDate (mergePeriod p u) <> ""
                   /\ Period.endDate (mergePeriod p u) = Forms.endDate form
                   /\ Period.endDate (mergePeriod p u) <> ""
                   /\ 0 < Period.incomeAmount (mergePeriod p u))
    end.
Proof.
  intros form editing. unfold Forms.submitPeriod.
  destruct (String.eqb_spec (trim (Forms.name form)) "") as [|Hname];
    [exact I|].
  destruct (String.eqb_spec (Forms.startDate form) "") as [|Hs]; [exact I|].
  destruct (String.eqb_spec (Forms.endDate form) "") as [|He]; [exact I|].
  cbn [orb].
  destruct (Forms.not_positive
              (parseInt10 (Forms.without_dots (Forms.incomeAmount form))))
    eqn:Hpos; [exact I|].
  apply not_positive_false in Hpos. destruct Hpos as (z & Hz & Hgt).
  rewrite Hz. cbn [or_zero].
  destruct editing as [p|].
  - exists p. cbn. repeat split; assumption.
  - cbn. repeat split; assumption.
Qed.

(** X16.  What the expense dialog hands to the hook is valid:
    [handleSubmit] of [Expenses] either shows a message and calls nothing,
    or calls [addExpense] with the active period, or [updateExpense] for
    the expense being edited, keeping its id and its period; both need a
    non-empty active period id, and in both calls the portion id and the
    date are those of the form and not empty, the description is the
    trimmed one of the form and not empty, and the amount is above zero. *)
Theorem submitExpense_valid :
  forall (form : Forms.ExpenseForm) (editing : option Expense.t)
         (activePeriodId : option string),
    match Forms.submitExpense form editing activePeriodId with
    | Forms.Rejected _ => True
    | Forms.Add f =>
        editing = None
        /\ activePeriodId = Some (Expense.f_periodId f)
        /\ Expense.f_periodId f <> ""
        /\ Expense.f_portionId f = Forms.portionId form
        /\ Expense.f_portionId f <> ""
        /\ Expense.f_date f = Forms.date form
        /\ Expense.f_date f <> ""
        /\ Expense.f_description f = trim (Forms.description form)
        /\ Expense.f_description f <> ""
        /\ 0 < Expense.f_amount f
    | Forms.Update i u =>
        (exists e a, editing = Some e /\ i = Expense.id e
                   /\ activePeriodId = Some a /\ a <> ""
                   /\ Expense.u_id u = None /\ Expense.u_periodId u = None
                   /\ Expense.id (mergeExpense e u) = Expense.id e
                   /\ Expense.periodId (mergeExpense e u) = Expense.periodId e
                   /\ Expense.portionId (mergeExpense e u) = Forms.portionId form
                   /\ Expense.portionId (mergeExpense e u) <> ""
                   /\ Expense.date (mergeExpense e u) = Forms.date form
                   /\ Expense.date (mergeExpense e u) <> ""
                   /\ Expense.description (mergeExpense e u)
                      = trim (Forms.description form)
                   /\ Expense.description (mergeExpense e u) <> ""
                   /\ 0 < Expense.amount (mergeExpense e u))
    end.
Proof.
  intros form editing active. unfold Forms.submitExpense.
  destruct (String.eqb_spec (Forms.portionId form) "") as [|Hp]; [exact I|].
  destruct (String.eqb_spec (Forms.date form) "") as [|Hd]; [exact I|].
  destruct (String.eqb_spec (trim (Forms.description form)) "") as [|Hdesc];
    [exact I|].
  destruct (Forms.not_positive
              (parseInt10 (Forms.without_dots (Forms.amount form))))
    eqn:Hpos; [exact I|].
  apply not_positive_false in Hpos. destruct Hpos as (z & Hz & Hgt).
  rewrite Hz. cbn [or_zero].
  destruct active as [a|]; [|exact I]. unfold nonempty.
  destruct (String.eqb_spec a "") as [|Ha]; [exact I|].
  destruct editing as [e|].
  - exists e, a. cbn. repeat split; assumption.
  - cbn. repeat split; assumption.
Qed.

(** X17.  For a period whose income is a safe integer: opening the edit
    dialog and saving it unchanged leaves the period as it is, when its
    name is trimmed and not empty, its dates are not empty and its income
    is above zero; when its income is not above zero (as imported data may
    have it), the dialog cannot be saved at all. *)
Theorem edit_and_save_period (p : Period.t) :
  Z.abs (Period.incomeAmount p) <= MAX_SAFE_INTEGER ->
  trim (Period.name p) = Period.name p ->
  Period.name p <> "" ->
  Period.startDate p <> "" ->
  Period.endDate p <> "" ->
  exists u : Period.partial,
    mergePeriod p u = p
    /\ Forms.submitPeriod (Forms.editPeriod p) (Some p)
       = if 0 <? Period.incomeAmount p
         then Forms.Update (Period.id p) u
         else Forms.Rejected "Income must be greater than 0".
Proof.
  intros _ Htrim Hname Hs He.
  exists (Period.mkPartial None (Some (Period.name p))
            (Some (Period.startDate p)) (Some (Period.endDate p))
            (Some (Period.incomeAmount p))).
  split; [destruct p; reflexivity|].
  unfold Forms.submitPeriod, Forms.editPeriod.
  cbn [Forms.name Forms.startDate Forms.endDate Forms.incomeAmount].
  rewrite Htrim, parseInt10_string_of_Z.
  apply String.eqb_neq in Hname, Hs, He. rewrite Hname, Hs, He.
  cbn [orb Forms.not_positive or_zero].
  destruct (Z.ltb_spec 0 (Period.incomeAmount p)) as [Hinc|Hinc].
  - destruct (Z.eqb_spec (Period.incomeAmount p) 0) as [E|_]; [lia|].
    destruct (Z.leb_spec (Period.incomeAmount p) 0) as [L|_]; [lia|].
    reflexivity.
  - destruct (Z.leb_spec (Period.incomeAmount p) 0) as [_|L]; [|lia].
    rewrite orb_true_r. reflexivity.
Qed.

Lemma edit_and_save_period_witness :
  exists u : Period.partial,
    mergePeriod Demo.nov u = Demo.nov
    /\ Forms.submitPeriod (Forms.editPeriod Demo.nov) (Some Demo.nov)
       = if 0 <? Period.incomeAmount Demo.nov
         then Forms.Update (Period.id Demo.nov) u
         else Forms.Rejected "Income must be greater than 0".
Proof.
  apply (edit_and_save_period Demo.nov).
  - unfold MAX_SAFE_INTEGER. simpl. lia.
  - reflexivity.
  - discriminate.
  - discriminate.
  - discriminate.
Defined.

(** ** A save that fails *)

Lemma stamp_object (o : list (string * JSON)) (w : World) :
  stamp (JObj o) w
  = Ok (JObj (set_prop o "lastUsedAt" (JStr (iso_now w)))) (tick w).
Proof. reflexivity. Qed.

Lemma store_has_required (d : AppData.t) :
  AppData.version d <> "" ->
  forallb (fun k => negb (falsy (get_prop (AppData.props d) k))) required
  = true.
Proof.
  intros Hv. destruct d as [v c l ps qs es [a|]]; simpl in *;
    destruct (String.eqb_spec v ""); try contradiction; reflexivity.
Qed.

(** X18.  [importData] is not all or nothing: when the text is a valid
    export but the storage refuses the write, the call throws the error of
    [saveDataToLocalStorage] and leaves the slot as it was, yet the state
    of the hook already holds the imported store, so what is shown and what
    is stored differ. *)
Theorem importData_sets_state_when_save_fails
    (st : State) (w : World) (d : AppData.t) :
  (forall text, accepts (platform w) text = false) ->
  AppData.version d <> "" ->
  exists w' : World,
    importData (exportDataAsJson (AppData.toJSON d)) st w
    = (setData (AppData.toJSON (AppData.set_lastUsedAt d (iso_now (tick w)))) st,
       Throw failed_to_save w')
    /\ storage w' = storage w.
Proof.
  intros Hrefuse Hv. exists (tick (tick w)). split; [|reflexivity].
  unfold importData, AppData.toJSON.
  rewrite import_export_object;
    [|exact (wf_store d)|exact (store_has_required d Hv)].
  rewrite save_eq, stamp_object. unfold stamped.
  change (platform (tick w)) with (platform w). rewrite Hrefuse.
  rewrite set_prop_twice, props_stamp. reflexivity.
Qed.

Lemma importData_sets_state_when_save_fails_witness :
  exists w' : World,
    importData (exportDataAsJson (AppData.toJSON Sample.store)) Hook.initial
      (Sample.full_world None)
    = (setData (AppData.toJSON
                  (AppData.set_lastUsedAt Sample.store
                     (iso_now (tick (Sample.full_world None)))))
         Hook.initial,
       Throw failed_to_save w')
    /\ storage w' = storage (Sample.full_world None).
Proof.
  apply (importData_sets_state_when_save_fails Hook.initial
           (Sample.full_world None) Sample.store).
  - intros text. reflexivity.
  - discriminate.
Defined.
